(** * net-mac-address-lookup: the validator, the resolver and the driver

    A shallow embedding of [main.py].  Python values are modelled as the
    interpreter has them: a [str] is a sequence of Unicode code points, a
    [dict] is a finite map, an exception is a value that a [try] may or
    may not catch.  Effects (standard output, the log stream, the logger's
    level) are threaded through a small state-and-exception monad. *)

From Stdlib Require Import ZArith NArith List Bool Lia String Ascii.
From Stdlib Require Import Floats.SpecFloat.
From stdpp Require Import base option list countable gmap.

Open Scope Z_scope.
#[local] Set Warnings "-register-all".

(** ** Strings *)

Module PyStr.

(** A literal of the source, written as a Rocq string. *)
Definition lit (s : string) : list N :=
  List.map N_of_ascii (list_ascii_of_string s).

Definition str_eqb (a b : list N) : bool := bool_decide (a = b).

(** [c in s] for a one-character [c]. *)
Definition char_in (c : N) (s : list N) : bool := existsb (N.eqb c) s.

Fixpoint startswith (p s : list N) : bool :=
  match p, s with
  | [], _ => true
  | _ :: _, [] => false
  | a :: p', b :: s' => N.eqb a b && startswith p' s'
  end.

(** [p in s] for strings: [p] occurs in [s] as a substring. *)
Fixpoint contains (p s : list N) : bool :=
  startswith p s ||
  match s with
  | [] => false
  | _ :: s' => contains p s'
  end.

(** [s.split(sep)] for a one-character separator: never empty, and the
    empty string gives one empty part. *)
Fixpoint split (sep : N) (s : list N) : list (list N) :=
  match s with
  | [] => [[]]
  | c :: s' =>
      if N.eqb c sep then [] :: split sep s'
      else match split sep s' with
           | p :: ps => (c :: p) :: ps
           | [] => [[c]]
           end
  end.

(** [sep.join(parts)]. *)
Fixpoint join (sep : list N) (parts : list (list N)) : list N :=
  match parts with
  | [] => []
  | [p] => p
  | p :: ps => p ++ sep ++ join sep ps
  end.

(** [str.isspace] on one code point: the Unicode white space that
    [str.strip()] removes. *)
Definition isspace (c : N) : bool :=
  ((9 <=? c) && (c <=? 13) || (28 <=? c) && (c <=? 32)
   || (c =? 133) || (c =? 160) || (c =? 5760)
   || (8192 <=? c) && (c <=? 8202)
   || (c =? 8232) || (c =? 8233) || (c =? 8239) || (c =? 8287)
   || (c =? 12288))%N.

Fixpoint lstrip (s : list N) : list N :=
  match s with
  | c :: s' => if isspace c then lstrip s' else s
  | [] => []
  end.

Definition rstrip (s : list N) : list N := rev (lstrip (rev s)).

(** [s.strip()]. *)
Definition strip (s : list N) : list N := rstrip (lstrip s).

End PyStr.
Import PyStr.

(** ** Exceptions *)

(** The exception classes that can reach this program, with the part of
    Python's class hierarchy its handlers look at. *)
Inductive exn_class :=
  | OSError                 (* [socket.error] is this class *)
  | RequestException        (* requests.exceptions, a subclass of OSError *)
  | HTTPError               (* raised by [raise_for_status] *)
  | ConnectionError
  | Timeout
  | RequestsJSONDecodeError (* both a RequestException and a ValueError *)
  | ValueError
  | UnicodeEncodeError      (* a ValueError: raised by [print] *)
  | TypeError
  | KeyError
  | OtherException          (* any other subclass of Exception *)
  | KeyboardInterrupt.      (* a BaseException that is not an Exception *)

Inductive exn :=
  | Exn (c : exn_class) (msg : list N)
  | SystemExit (code : Z).

Definition is_RequestException (c : exn_class) : bool :=
  match c with
  | RequestException | HTTPError | ConnectionError | Timeout
  | RequestsJSONDecodeError => true
  | _ => false
  end.

Definition is_OSError (c : exn_class) : bool :=
  match c with
  | OSError => true
  | _ => is_RequestException c
  end.

Definition is_ValueError (c : exn_class) : bool :=
  match c with
  | ValueError | RequestsJSONDecodeError | UnicodeEncodeError => true
  | _ => false
  end.

Definition is_Exception (c : exn_class) : bool :=
  match c with
  | KeyboardInterrupt => false
  | _ => true
  end.

(** [isinstance(e, cls)] for a handler [except cls]. *)
Definition isinstance (e : exn) (cls : exn_class -> bool) : bool :=
  match e with
  | Exn c _ => cls c
  | SystemExit _ => false
  end.

(** The outcome of evaluating an expression: a value, or an exception
    on its way up. *)
Inductive pyresult (A : Type) :=
  | Ok (a : A)
  | Raise (e : exn).
Arguments Ok {A} a.
Arguments Raise {A} e.

(** ** [socket.inet_aton] *)

Module Socket.

Definition isdigit (c : N) : bool := ((48 <=? c) && (c <=? 57))%N.

(** The value of [c] as a digit in [base], if it is one. *)
Definition digit_val (base c : N) : option N :=
  let v :=
    if ((48 <=? c) && (c <=? 57))%N then Some (c - 48)%N
    else if ((97 <=? c) && (c <=? 102))%N then Some (c - 87)%N
    else if ((65 <=? c) && (c <=? 70))%N then Some (c - 55)%N
    else None in
  match v with
  | Some d => if (d <? base)%N then Some d else None
  | None => None
  end.

(** The longest run of digits of [base] at the front of [s], read as a
    number with [acc] before it, and what follows it. *)
Fixpoint digits (base acc : N) (s : list N) : N * list N :=
  match s with
  | c :: s' =>
      match digit_val base c with
      | Some d => digits base (acc * base + d)%N s'
      | None => (acc, s)
      end
  | [] => (acc, s)
  end.

(** [strtoul(cp, &endp, 0)] on a string whose first character is a
    digit: [0x] and hexadecimal digits, [0] and octal digits, or
    decimal digits. *)
Definition strtoul (s : list N) : N * list N :=
  match s with
  | 48%N :: x :: h :: s' =>
      if (((x =? 120) || (x =? 88))%N && bool_decide (is_Some (digit_val 16 h)))
      then digits 16 0 (h :: s')
      else digits 8 0 s
  | 48%N :: _ => digits 8 0 s
  | _ => digits 10 0 s
  end.

(** The loop of the C library's [inet_aton]: numbers separated by
    dots, at most three of them before the last, each of those at most
    255.  [room] is the number of dots still allowed; [pp] holds the
    bytes stored so far. *)
Fixpoint aton_loop (room : nat) (pp : list N) (cp : list N)
  : option (list N * N * list N) :=
  match cp with
  | [] => None
  | c :: _ =>
      if negb (isdigit c) then None
      else
        let '(val, rest) := strtoul cp in
        if (4294967295 <? val)%N then None
        else match rest with
             | 46%N :: cp' =>
                 match room with
                 | O => None
                 | S room' =>
                     if (255 <? val)%N then None
                     else aton_loop room' (pp ++ [val]) cp'
                 end
             | _ => Some (pp, val, rest)
             end
  end.

(** Space characters of C's [isspace] in the ASCII range. *)
Definition c_isspace (c : N) : bool :=
  ((c =? 32) || (9 <=? c) && (c <=? 13))%N.

(** The largest last number, by the count of bytes stored before it. *)
Definition max_last (stored : nat) : N :=
  match stored with
  | 0%nat => 4294967295
  | 1%nat => 16777215
  | 2%nat => 65535
  | _ => 255
  end%N.

(** The last number spread over the bytes that remain, high byte
    first. *)
Fixpoint spread (n : nat) (val : N) : list N :=
  match n with
  | O => []
  | S n' => (N.shiftr val (8 * N.of_nat n') mod 256)%N :: spread n' val
  end.

Definition illegal : exn :=
  Exn OSError (lit "illegal IP address string passed to inet_aton").

(** [socket.inet_aton(ip_string)]: the four packed bytes of an IPv4
    address in dotted notation; [OSError] when the string is not one;
    [ValueError] when it holds a null character. *)
Definition inet_aton (ip_string : list N) : pyresult (list N) :=
  if char_in 0%N ip_string
  then Raise (Exn ValueError (lit "embedded null character"))
  else
    match aton_loop 3 [] ip_string with
    | None => Raise illegal
    | Some (pp, val, rest) =>
        let trailing_ok :=
          match rest with
          | [] => true
          | c :: _ => c_isspace c
          end in
        if negb trailing_ok then Raise illegal
        else if (max_last (length pp) <? val)%N then Raise illegal
        else Ok (pp ++ spread (4 - length pp) val)
    end.

End Socket.

(** ** The input validator *)

(** The body of the [for] loop of [is_valid_mac_address], with its two
    early returns; [true] when the loop runs to its end. *)
Fixpoint check_octets (octets : list (list N)) : bool :=
  match octets with
  | [] => true
  | octet :: rest =>
      if negb (length octet =? 2)%nat then false
      else if negb (forallb (fun c => char_in c (lit "0123456789abcdefABCDEF")) octet)
      then false
      else check_octets rest
  end.

(** The statements of the [try] block after the call of [inet_aton]. *)
Definition validate_parts (mac_address : list N) : bool :=
  if negb (length (split 58 mac_address) =? 6)%nat then false
  else check_octets (split 58 mac_address).

(** [is_valid_mac_address(mac_address)]. *)
Definition is_valid_mac_address (mac_address : list N) : pyresult bool :=
  let body :=
    match Socket.inet_aton (join (lit ":") (repeat (lit "0") 6)) with
    | Raise e => Raise e
    | Ok _ => Ok (validate_parts mac_address)
    end in
  match body with
  | Raise e => if isinstance e is_OSError then Ok false else Raise e
  | r => r
  end.

(** The same function with the call of [socket.inet_aton] removed. *)
Definition is_valid_mac_address_without_dummy (mac_address : list N)
  : pyresult bool :=
  let body := Ok (validate_parts mac_address) in
  match body with
  | Raise e => if isinstance e is_OSError then Ok false else Raise e
  | r => r
  end.

(** ** Python values *)

(** What [response.json()] can return: the Python image of a JSON
    document.  An [int] has any size, a [float] is an IEEE double, a
    [dict] has string keys. *)
Inductive pyvalue :=
  | PNone
  | PBool (b : bool)
  | PInt (z : Z)
  | PFloat (f : spec_float)
  | PStr (s : list N)
  | PList (l : list pyvalue)
  | PDict (d : gmap (list N) pyvalue).

(** [bool(v)]. *)
Definition truthy (v : pyvalue) : bool :=
  match v with
  | PNone => false
  | PBool b => b
  | PInt z => negb (z =? 0)
  | PFloat (S754_zero _) => false
  | PFloat _ => true
  | PStr s => negb (bool_decide (s = []))
  | PList l => negb (bool_decide (l = []))
  | PDict d => negb (bool_decide (d = ∅))
  end.

Definition is_str (key : list N) (v : pyvalue) : bool :=
  match v with
  | PStr s => str_eqb key s
  | _ => false
  end.

(** [key in v] for a string [key]: a key of a dict, an element of a
    list, a substring of a string; a [TypeError] on anything else. *)
Definition py_in (key : list N) (v : pyvalue) : pyresult bool :=
  match v with
  | PDict d => Ok (bool_decide (is_Some (d !! key)))
  | PList l => Ok (existsb (is_str key) l)
  | PStr s => Ok (contains key s)
  | _ => Raise (Exn TypeError (lit "argument is not iterable"))
  end.

(** [v[key]] for a string [key]: the entry of a dict, a [KeyError] when
    it has none; a [TypeError] on anything else. *)
Definition getitem (v : pyvalue) (key : list N) : pyresult pyvalue :=
  match v with
  | PDict d =>
      match d !! key with
      | Some x => Ok x
      | None => Raise (Exn KeyError key)
      end
  | PList _ => Raise (Exn TypeError (lit "list indices must be integers or slices, not str"))
  | PStr _ => Raise (Exn TypeError (lit "string indices must be integers"))
  | _ => Raise (Exn TypeError (lit "object is not subscriptable"))
  end.

(** ** The state of a run and its monad *)

Definition DEBUG : Z := 10.
Definition INFO : Z := 20.
Definition WARNING : Z := 30.
Definition ERROR : Z := 40.

(** What a run has written and the level of the root logger.  A log
    record is its level and its message; the time stamp that the format
    puts before them is left out. *)
Record state := mkState {
  stdout : list (list N);
  log : list (Z * list N);
  level : Z
}.

(** A computation: from a state to a value or an exception, and the
    state it leaves.  What was written before an exception stays
    written. *)
Definition M (A : Type) : Type := state -> pyresult A * state.

Definition ret {A} (a : A) : M A := fun st => (Ok a, st).

Definition bind {A B} (m : M A) (k : A -> M B) : M B :=
  fun st =>
    match m st with
    | (Ok a, st') => k a st'
    | (Raise e, st') => (Raise e, st')
    end.

Definition lift {A} (r : pyresult A) : M A := fun st => (r, st).

Definition raise {A} (e : exn) : M A := lift (Raise e).

(** [try: body  except ...: handler e]; a handler that does not match
    raises [e] again. *)
Definition try_except {A} (body : M A) (handler : exn -> M A) : M A :=
  fun st =>
    match body st with
    | (Ok a, st') => (Ok a, st')
    | (Raise e, st') => handler e st'
    end.

Declare Scope py_scope.
Delimit Scope py_scope with py.
Notation "x <- m ;; k" := (bind m (fun x => k))
  (at level 100, m at next level, right associativity) : py_scope.
Notation "m ;; k" := (bind m (fun _ => k))
  (at level 100, right associativity) : py_scope.
Open Scope py_scope.

(** [logging.log(lv, msg)] on the root logger. *)
Definition logging_log (lv : Z) (msg : list N) : M unit :=
  fun st =>
    if level st <=? lv
    then (Ok tt, mkState (stdout st) (log st ++ [(lv, msg)]) (level st))
    else (Ok tt, st).

Definition logging_debug := logging_log DEBUG.
Definition logging_info := logging_log INFO.
Definition logging_warning := logging_log WARNING.
Definition logging_error := logging_log ERROR.

(** [logging.getLogger().setLevel(lv)]. *)
Definition setLevel (lv : Z) : M unit :=
  fun st => (Ok tt, mkState (stdout st) (log st) lv).

(** Standard output can encode [text]: every encoding that Python
    gives it encodes ASCII; for any other character the encoding and its
    error handler decide, which [stdout_encodes] stands for. *)
Definition encodable (stdout_encodes : N -> bool) (text : list N) : bool :=
  forallb (fun c => (c <? 128)%N || stdout_encodes c) text.

(** [print(text)]: one entry of standard output for the call, the text
    that the newline follows (a text that holds a newline is more than
    one line on the screen); a [UnicodeEncodeError], and nothing written,
    when standard output cannot encode the text.  The message of the
    error also names the codec and the position. *)
Definition print (stdout_encodes : N -> bool) (text : list N) : M unit :=
  fun st =>
    if encodable stdout_encodes text
    then (Ok tt, mkState (stdout st ++ [text]) (log st) (level st))
    else (Raise (Exn UnicodeEncodeError (lit "codec can't encode character")), st).

(** [sys.exit(code)]. *)
Definition sys_exit {A} (code : Z) : M A := raise (SystemExit code).

(** [str(e)]. *)
Definition exn_str (e : exn) : list N :=
  match e with
  | Exn _ msg => msg
  | SystemExit _ => []
  end.

(** ** The vendor resolver *)

(** A response of the service as the program sees it: its status and
    what [response.json()] does with its body. *)
Record Response := mkResponse {
  status_code : Z;
  json : pyresult pyvalue
}.

(** [response.raise_for_status()]: an [HTTPError] for a status from 400
    to 599.  The text of the error also names the status, the reason and
    the URL. *)
Definition raise_for_status (r : Response) : pyresult unit :=
  if (400 <=? status_code r) && (status_code r <? 500)
  then Raise (Exn HTTPError (lit "Client Error"))
  else if (500 <=? status_code r) && (status_code r <? 600)
  then Raise (Exn HTTPError (lit "Server Error"))
  else Ok tt.

Definition MAC_VENDOR_API_URL_prefix : list N := lit "https://macvendors.co/api/".

(** [MAC_VENDOR_API_URL.format(mac_address=mac_address)]. *)
Definition format_url (mac_address : list N) : list N :=
  MAC_VENDOR_API_URL_prefix ++ mac_address.

(** [data and 'result' in data and 'company' in data['result']], as the
    [if] sees it. *)
Definition has_company (data : pyvalue) : pyresult bool :=
  if negb (truthy data) then Ok false
  else
    match py_in (lit "result") data with
    | Raise e => Raise e
    | Ok false => Ok false
    | Ok true =>
        match getitem data (lit "result") with
        | Raise e => Raise e
        | Ok r => py_in (lit "company") r
        end
    end.

Section Program.

(** [requests.get(url)]: the response, or the exception of a request
    that failed. *)
Variable requests_get : list N -> pyresult Response.

(** [str(v)] of a value that is not a string. *)
Variable py_repr : pyvalue -> list N.

(** The characters beyond ASCII that standard output can encode. *)
Variable stdout_encodes : N -> bool.

(** The [try] block of [lookup_mac_vendor]. *)
Definition lookup_body (mac_address : list N) : M pyvalue :=
  let url := format_url mac_address in
  logging_debug (lit "Sending request to " ++ url) ;;
  response <- lift (requests_get url) ;;
  lift (raise_for_status response) ;;
  data <- lift (json response) ;;
  c <- lift (has_company data) ;;
  if (c : bool) then
    r <- lift (getitem data (lit "result")) ;;
    lift (getitem r (lit "company"))
  else
    logging_warning
      (lit "Vendor information not found for MAC address: " ++ mac_address) ;;
    ret PNone.

(** Its three [except] clauses, tried in order. *)
Definition lookup_handler (e : exn) : M pyvalue :=
  if isinstance e is_RequestException then
    logging_error (lit "An error occurred during the request: " ++ exn_str e) ;;
    ret PNone
  else if isinstance e is_ValueError then
    logging_error (lit "Failed to parse JSON response: " ++ exn_str e) ;;
    ret PNone
  else if isinstance e is_Exception then
    logging_error (lit "An unexpected error occurred: " ++ exn_str e) ;;
    ret PNone
  else raise e.

(** [lookup_mac_vendor(mac_address)]. *)
Definition lookup_mac_vendor (mac_address : list N) : M pyvalue :=
  try_except (lookup_body mac_address) lookup_handler.

(** The value in an f-string: a string as it is, anything else through
    its [str]. *)
Definition format_value (v : pyvalue) : list N :=
  match v with
  | PStr s => s
  | _ => py_repr v
  end.

(** The arguments that [parser.parse_args()] returns. *)
Record Namespace := mkNamespace {
  mac_address : list N;
  verbose : bool
}.

(** Lines 106 to 113 of [main]: what it does with an address that
    passed the validation. *)
Definition main_lookup (mac : list N) : M unit :=
  logging_info (lit "Looking up vendor for MAC address: " ++ mac) ;;
  vendor_info <- lookup_mac_vendor mac ;;
  if truthy vendor_info
  then print stdout_encodes (lit "Vendor: " ++ format_value vendor_info)
  else print stdout_encodes (lit "Vendor information not found.").

(** [main()], from the parsed arguments on. *)
Definition main (args : Namespace) : M unit :=
  (if verbose args
   then setLevel DEBUG ;; logging_debug (lit "Verbose logging enabled.")
   else ret tt) ;;
  let mac := strip (mac_address args) in
  valid <- lift (is_valid_mac_address mac) ;;
  (if negb valid
   then
     logging_error
       (lit "Invalid MAC address format. Please use the format XX:XX:XX:XX:XX:XX.") ;;
     sys_exit 1
   else ret tt) ;;
  main_lookup mac.

End Program.

(** The state at the start of [main]: nothing written, the root logger
    at the level that [logging.basicConfig] gave it. *)
Definition initial : state := mkState [] [] INFO.

(** The exit status of the process: 0 when [main] returns, the code of
    a [SystemExit], 1 after the traceback of an uncaught [Exception]; an
    uncaught [KeyboardInterrupt] ends the process by [SIGINT], which a
    POSIX shell reports as 130. *)
Definition exit_status (r : pyresult unit) : Z :=
  match r with
  | Ok _ => 0
  | Raise (SystemExit code) => code
  | Raise (Exn KeyboardInterrupt _) => 130
  | Raise (Exn _ _) => 1
  end.

(** A whole run: the exit status and what was written. *)
Definition run (requests_get : list N -> pyresult Response)
  (py_repr : pyvalue -> list N) (stdout_encodes : N -> bool)
  (args : Namespace) : Z * state :=
  let '(r, st) := main requests_get py_repr stdout_encodes args initial in
  (exit_status r, st).

(** * Specifications *)

(** ** What a MAC address is *)

(** A hexadecimal digit, in either letter case. *)
Definition hexdigit (c : N) : Prop :=
  (48 <= c <= 57 \/ 97 <= c <= 102 \/ 65 <= c <= 70)%N.

(** [parts] are the colon-separated parts of [s]: there is at least
    one, none holds a colon, and joined by colons they give [s]. *)
Definition parts_of (s : list N) (parts : list (list N)) : Prop :=
  parts <> [] /\ Forall (fun p => 58%N ∉ p) parts /\ s = join (lit ":") parts.

(** One octet: exactly two hexadecimal digits. *)
Definition octet_ok (p : list N) : Prop :=
  length p = 2%nat /\ Forall hexdigit p.

(** A well-formed MAC address: six octets joined by colons. *)
Definition well_formed_mac (s : list N) : Prop :=
  exists parts, parts_of s parts /\ length parts = 6%nat /\ Forall octet_ok parts.

(** The address of the program's help text. *)
Definition example_mac : list N := lit "00:1A:2B:3C:4D:5E".

(** ** What the service answers *)

(** [data] is a JSON object with an object [result] that has a field
    [company], of value [v]. *)
Definition company_is (data v : pyvalue) : Prop :=
  exists d r, data = PDict d /\ d !! lit "result" = Some (PDict r)
              /\ r !! lit "company" = Some v.

Definition has_result_company (data : pyvalue) : Prop :=
  exists v, company_is data v.

(** A status for which [raise_for_status] raises. *)
Definition error_status (r : Response) : Prop := 400 <= status_code r < 600.

(** A status outside 200 to 299. *)
Definition non_2xx (r : Response) : Prop := ~ (200 <= status_code r < 300).

(** An outcome raises nothing but instances of [Exception]. *)
Definition only_Exception {A} (r : pyresult A) : Prop :=
  match r with
  | Ok _ => True
  | Raise e => isinstance e is_Exception = true
  end.

(** The HTTP call behaves in one of the expected ways: what
    [requests.get] and [response.json] raise, if anything, is an
    [Exception] (an error of the transport, of the decoder, or any other),
    not a [KeyboardInterrupt] or a [SystemExit].  The body of a response
    with an error status is never decoded. *)
Definition http_behaves (requests_get : list N -> pyresult Response)
  (mac : list N) : Prop :=
  only_Exception (requests_get (format_url mac)) /\
  forall resp, requests_get (format_url mac) = Ok resp ->
               ~ error_status resp -> only_Exception (json resp).

(** The field [result.company] of a document, [None] when it has
    none. *)
Definition company_of (data : pyvalue) : pyvalue :=
  match data with
  | PDict d =>
      match d !! lit "result" with
      | Some (PDict r) =>
          match r !! lit "company" with
          | Some v => v
          | None => PNone
          end
      | _ => PNone
      end
  | _ => PNone
  end.

(** The value that [lookup_mac_vendor] returns, read off the answer of
    the service. *)
Definition vendor_of (requests_get : list N -> pyresult Response)
  (mac : list N) : pyvalue :=
  match requests_get (format_url mac) with
  | Raise _ => PNone
  | Ok resp =>
      if (400 <=? status_code resp) && (status_code resp <? 600) then PNone
      else match json resp with
           | Ok data => company_of data
           | Raise _ => PNone
           end
  end.

(** ** Runs of the resolver *)

(** The service answers with a status from 200 to 299 and a JSON
    document without [result.company]. *)
Definition not_found_run (requests_get : list N -> pyresult Response)
  (mac : list N) : Prop :=
  exists resp data,
    requests_get (format_url mac) = Ok resp /\ 200 <= status_code resp < 300
    /\ json resp = Ok data /\ ~ has_result_company data.

(** The request fails in transport. *)
Definition transport_error (requests_get : list N -> pyresult Response)
  (mac : list N) : Prop :=
  exists e, requests_get (format_url mac) = Raise e
            /\ isinstance e is_RequestException = true.

(** The request fails as the claim words it: in transport, or with a
    status outside 200 to 299. *)
Definition failed_run_non_2xx (requests_get : list N -> pyresult Response)
  (mac : list N) : Prop :=
  transport_error requests_get mac \/
  exists resp, requests_get (format_url mac) = Ok resp /\ non_2xx resp.

(** The request fails as the code has it: in transport, or with a
    status from 400 to 599. *)
Definition failed_run (requests_get : list N -> pyresult Response)
  (mac : list N) : Prop :=
  transport_error requests_get mac \/
  exists resp, requests_get (format_url mac) = Ok resp /\ error_status resp.

(** ** Sample services and documents *)

(** A service that answers every request with [code] and a body that
    decodes to [data]. *)
Definition service (code : Z) (data : pyvalue) : list N -> pyresult Response :=
  fun _ => Ok (mkResponse code (Ok data)).

(** [{"result": {"company": v}}]. *)
Definition company_doc (v : pyvalue) : pyvalue :=
  PDict {[ lit "result" := PDict {[ lit "company" := v ]} ]}.

(** [{"result": {}}]. *)
Definition empty_result_doc : pyvalue := PDict {[ lit "result" := PDict ∅ ]}.

(** A request that cannot connect. *)
Definition unreachable : list N -> pyresult Response :=
  fun _ => Raise (Exn ConnectionError (lit "Max retries exceeded")).

(** ** The driver, one block at a time *)

(** [m] gives the same outcome and prints the same lines from two
    states that differ only in the log and in the logger's level. *)
Definition insensitive {A} (m : M A) : Prop :=
  forall st1 st2, stdout st1 = stdout st2 ->
    fst (m st1) = fst (m st2) /\ stdout (snd (m st1)) = stdout (snd (m st2)).

(** What [main] does after the block of the flag [-v]. *)
Definition after_verbose get repr enc (mac_arg : list N) : M unit :=
  let mac := strip mac_arg in
  valid <- lift (is_valid_mac_address mac) ;;
  (if negb valid
   then
     logging_error
       (lit "Invalid MAC address format. Please use the format XX:XX:XX:XX:XX:XX.") ;;
     sys_exit 1
   else ret tt) ;;
  main_lookup get repr enc mac.

(** ** Claims that the code does not meet, as they are stated *)

(** C6 as it is stated: a "not found" run and a "request failed" run
    never return the same value. *)
Definition claim_C6 : Prop :=
  forall get1 get2 mac st,
    not_found_run get1 mac -> failed_run_non_2xx get2 mac ->
    fst (lookup_mac_vendor get1 mac st) <> fst (lookup_mac_vendor get2 mac st).

(** C5 as it is stated, for the part of [main] that a validated address
    reaches: after any status outside 200 to 299, or a body with such a
    status that lacks [result.company], the only line printed is
    [Vendor information not found.] and [main] returns. *)
Definition claim_C5 : Prop :=
  forall get repr enc mac st resp,
    well_formed_mac mac ->
    get (format_url mac) = Ok resp ->
    non_2xx resp \/
    (200 <= status_code resp < 300 /\
     exists data, json resp = Ok data /\ ~ has_result_company data) ->
    exit_status (fst (main_lookup get repr enc mac st)) = 0 /\
    stdout (snd (main_lookup get repr enc mac st))
    = stdout st ++ [lit "Vendor information not found."].

(** ** Further notions for the properties of the code *)

(** The ASCII letter [c] in lower case; any other character is left. *)
Definition ascii_lower (c : N) : N :=
  if ((65 <=? c) && (c <=? 90))%N then (c + 32)%N else c.

(** The ASCII letter [c] in upper case; any other character is left. *)
Definition ascii_upper (c : N) : N :=
  if ((97 <=? c) && (c <=? 122))%N then (c - 32)%N else c.

(** A character that an address may hold: a hexadecimal digit or the
    colon. *)
Definition mac_char (c : N) : Prop := hexdigit c \/ c = 58%N.


(** The record that [main] logs first under [-v]. *)
Definition verbose_record : Z * list N :=
  (DEBUG, lit "Verbose logging enabled.").

(** [m] writes nothing to standard output, leaves the logger's level,
    and only adds records at the end of the log. *)
Definition log_only {A} (m : M A) : Prop :=
  forall st,
    stdout (snd (m st)) = stdout st /\
    level (snd (m st)) = level st /\
    exists records, log (snd (m st)) = log st ++ records.

(** A record that is not of level [DEBUG]. *)
Definition above_debug (record : Z * list N) : bool := negb (fst record =? DEBUG).

(** [sv] is a state of a run with [-v] and [sq] the state of the same
    run without it: the same lines printed, the levels [DEBUG] and
    [INFO], and the log of [sq] is the log of [sv] without its [DEBUG]
    records. *)
Definition verbose_view (sv sq : state) : Prop :=
  stdout sv = stdout sq /\ level sv = DEBUG /\ level sq = INFO /\
  List.filter above_debug (log sv) = log sq.

(** [m] gives the same outcome with and without [-v] and keeps the
    two states in step. *)
Definition in_step {A} (m : M A) : Prop :=
  forall sv sq, verbose_view sv sq ->
    fst (m sv) = fst (m sq) /\ verbose_view (snd (m sv)) (snd (m sq)).

(** The service gives no vendor: the request raises an [Exception],
    or the status is from 400 to 599, or the body does not decode, or
    the document has no [result.company]. *)
Definition no_vendor (requests_get : list N -> pyresult Response)
  (mac : list N) : Prop :=
  (exists e, requests_get (format_url mac) = Raise e
             /\ isinstance e is_Exception = true)
  \/ exists resp, requests_get (format_url mac) = Ok resp /\
       (error_status resp
        \/ (exists e, json resp = Raise e /\ isinstance e is_Exception = true)
        \/ (exists data, json resp = Ok data /\ ~ has_result_company data)).

(** The service answers, with a status that is no error, the document
    [data]. *)
Definition answers (requests_get : list N -> pyresult Response)
  (mac : list N) (data : pyvalue) : Prop :=
  exists resp, requests_get (format_url mac) = Ok resp /\ ~ error_status resp
               /\ json resp = Ok data.




(** * Proofs *)

(** ** The model on concrete inputs *)

Example inet_aton_loopback :
  Socket.inet_aton (lit "127.0.0.1") = Ok [127; 0; 0; 1]%N.
Proof. vm_compute. reflexivity. Qed.

Example inet_aton_short :
  Socket.inet_aton (lit "10.258") = Ok [10; 0; 1; 2]%N.
Proof. vm_compute. reflexivity. Qed.

Example inet_aton_hex_octal :
  Socket.inet_aton (lit "0x7f.010.0.1") = Ok [127; 8; 0; 1]%N.
Proof. vm_compute. reflexivity. Qed.

Example inet_aton_dummy :
  Socket.inet_aton (lit "0:0:0:0:0:0") = Raise Socket.illegal.
Proof. vm_compute. reflexivity. Qed.

Example split_example :
  split 58 (lit "a::b") = [lit "a"; lit ""; lit "b"].
Proof. vm_compute. reflexivity. Qed.

Example strip_example : strip (lit "  00:1A:2B:3C:4D:5E ") = example_mac.
Proof. vm_compute. reflexivity. Qed.

Example validate_parts_lowercase : validate_parts (lit "00:1a:2b:3c:4d:5e") = true.
Proof. vm_compute. reflexivity. Qed.

Example validate_parts_dashes : validate_parts (lit "00-1A-2B-3C-4D-5E") = false.
Proof. vm_compute. reflexivity. Qed.

Example main_lookup_acme :
  stdout (snd (main_lookup (service 200 (company_doc (PStr (lit "Acme Corp"))))
                 (fun _ => []) (fun _ => true) example_mac initial))
  = [lit "Vendor: Acme Corp"].
Proof. vm_compute. reflexivity. Qed.

Example run_acme :
  run (service 200 (company_doc (PStr (lit "Acme Corp")))) (fun _ => []) (fun _ => true)
    (mkNamespace example_mac false)
  = (1, mkState []
          [(ERROR, lit "Invalid MAC address format. Please use the format XX:XX:XX:XX:XX:XX.")]
          INFO).
Proof. vm_compute. reflexivity. Qed.

(** ** Lemmas on strings *)

Lemma split_not_nil sep s : split sep s <> [].
Proof.
  destruct s as [|c s]; simpl; [easy|].
  destruct (N.eqb c sep); [easy|]. destruct (split sep s); easy.
Qed.

Lemma split_no_sep sep p : sep ∉ p -> split sep p = [p].
Proof.
  induction p as [|c p IH]; intros Hp; simpl; [reflexivity|].
  apply not_elem_of_cons in Hp as [Hc Hp].
  destruct (N.eqb_spec c sep) as [->|_]; [congruence|].
  rewrite (IH Hp). reflexivity.
Qed.

Lemma split_app_sep sep p s :
  sep ∉ p -> split sep (p ++ sep :: s) = p :: split sep s.
Proof.
  induction p as [|c p IH]; intros Hp; simpl.
  - rewrite N.eqb_refl. reflexivity.
  - apply not_elem_of_cons in Hp as [Hc Hp].
    destruct (N.eqb_spec c sep) as [->|_]; [congruence|].
    rewrite (IH Hp). reflexivity.
Qed.

Lemma split_join sep parts :
  parts <> [] -> Forall (fun p => sep ∉ p) parts ->
  split sep (join [sep] parts) = parts.
Proof.
  intros Hne Hall. induction Hall as [|p ps Hp Hps IH]; [congruence|].
  destruct ps as [|q ps].
  - simpl. apply split_no_sep, Hp.
  - change (join [sep] (p :: q :: ps)) with (p ++ sep :: join [sep] (q :: ps)).
    rewrite split_app_sep by exact Hp. f_equal. apply IH. discriminate.
Qed.

Lemma split_parts sep s : Forall (fun p => sep ∉ p) (split sep s).
Proof.
  induction s as [|c s IH]; simpl.
  - constructor; [apply not_elem_of_nil|constructor].
  - destruct (N.eqb_spec c sep) as [->|Hc].
    + constructor; [apply not_elem_of_nil|exact IH].
    + destruct (split sep s) as [|p ps]; [constructor; [|constructor]|].
      * intros H. apply list_elem_of_singleton in H. congruence.
      * inversion IH; subst. constructor; [|assumption].
        apply not_elem_of_cons. split; [congruence|assumption].
Qed.

Lemma join_split sep s : join [sep] (split sep s) = s.
Proof.
  induction s as [|c s IH]; simpl; [reflexivity|].
  destruct (N.eqb_spec c sep) as [->|Hc].
  - pose proof (split_not_nil sep s) as Hne.
    destruct (split sep s) as [|p ps]; [congruence|].
    simpl in *. rewrite IH. reflexivity.
  - pose proof (split_not_nil sep s) as Hne.
    destruct (split sep s) as [|p ps]; [congruence|].
    destruct ps as [|q ps]; simpl in *; rewrite <- IH; reflexivity.
Qed.

(** The parts of a string are what [split] returns, and nothing else. *)
Lemma parts_of_split s parts : parts_of s parts <-> split 58 s = parts.
Proof.
  split.
  - intros (Hne & Hall & ->). apply (split_join 58); assumption.
  - intros <-. split; [apply split_not_nil|].
    split; [apply split_parts|]. symmetry. apply (join_split 58).
Qed.

(** ** Lemmas on the validator *)

Lemma char_in_hex c :
  char_in c (lit "0123456789abcdefABCDEF") = true <-> hexdigit c.
Proof.
  unfold hexdigit. split.
  - intros H. apply existsb_exists in H as (x & Hx & Heq).
    apply N.eqb_eq in Heq. subst x. vm_compute in Hx.
    repeat (destruct Hx as [<-|Hx]; [lia|]). destruct Hx.
  - intros H.
    assert (Hc : (c = 48 \/ c = 49 \/ c = 50 \/ c = 51 \/ c = 52 \/ c = 53
                  \/ c = 54 \/ c = 55 \/ c = 56 \/ c = 57
                  \/ c = 97 \/ c = 98 \/ c = 99 \/ c = 100 \/ c = 101
                  \/ c = 102
                  \/ c = 65 \/ c = 66 \/ c = 67 \/ c = 68 \/ c = 69
                  \/ c = 70)%N) by lia.
    clear H.
    repeat (destruct Hc as [->|Hc]; [vm_compute; reflexivity|]).
    subst c. vm_compute. reflexivity.
Qed.

Lemma forallb_hex p :
  forallb (fun c => char_in c (lit "0123456789abcdefABCDEF")) p = true
  <-> Forall hexdigit p.
Proof.
  rewrite forallb_forall, List.Forall_forall.
  split; intros H c Hc; apply char_in_hex, H, Hc.
Qed.

Lemma check_octets_cons p ps :
  check_octets (p :: ps) =
  (length p =? 2)%nat
  && forallb (fun c => char_in c (lit "0123456789abcdefABCDEF")) p
  && check_octets ps.
Proof.
  cbn [check_octets].
  destruct (length p =? 2)%nat; [|reflexivity].
  destruct (forallb _ p); reflexivity.
Qed.

(** The loop accepts exactly the lists of octets. *)
Lemma check_octets_spec parts :
  check_octets parts = true <-> Forall octet_ok parts.
Proof.
  induction parts as [|p ps IH].
  - split; [constructor|reflexivity].
  - rewrite check_octets_cons, !andb_true_iff, IH, forallb_hex, Nat.eqb_eq.
    unfold octet_ok at 2. split.
    + intros [[Hl Hh] Hps]. constructor; [split|]; assumption.
    + intros H. inversion H as [|? ? [Hl Hh] Hps]; subst. tauto.
Qed.

(** The statements after the dummy call accept exactly the well-formed
    MAC addresses. *)
Lemma validate_parts_spec s :
  validate_parts s = true <-> well_formed_mac s.
Proof.
  unfold validate_parts, well_formed_mac.
  destruct (Nat.eqb_spec (length (split 58 s)) 6) as [Hlen|Hlen]; simpl.
  - rewrite check_octets_spec. split.
    + intros H. exists (split 58 s). split; [apply parts_of_split; reflexivity|].
      split; assumption.
    + intros (parts & Hp & _ & Hall). apply parts_of_split in Hp. subst parts.
      exact Hall.
  - split; [discriminate|].
    intros (parts & Hp & Hl & _). apply parts_of_split in Hp. subst parts.
    contradiction.
Qed.

(** The dummy call raises [OSError], whatever the address is. *)
Lemma dummy_call_raises :
  Socket.inet_aton (join (lit ":") (repeat (lit "0") 6)) = Raise Socket.illegal.
Proof. vm_compute. reflexivity. Qed.

(** So the handler of [socket.error] answers for every address. *)
Lemma is_valid_mac_address_handler s : is_valid_mac_address s = Ok false.
Proof. unfold is_valid_mac_address. rewrite dummy_call_raises. reflexivity. Qed.

Lemma without_dummy_validates s :
  is_valid_mac_address_without_dummy s = Ok (validate_parts s).
Proof. reflexivity. Qed.

Lemma example_mac_well_formed : well_formed_mac example_mac.
Proof. apply validate_parts_spec. vm_compute. reflexivity. Qed.

(** ** Claims on the validator *)

(** C1 (the code departs from it): a well-formed MAC address, six
    colon-separated parts of two hexadecimal digits each, should be
    accepted.  The address [00:1A:2B:3C:4D:5E] is well formed and
    [is_valid_mac_address] returns [False] on it: the dummy call of
    [socket.inet_aton] raises, and the handler returns [False]. *)
Theorem C1_well_formed_mac_rejected :
  well_formed_mac example_mac /\ is_valid_mac_address example_mac = Ok false.
Proof.
  split; [exact example_mac_well_formed|apply is_valid_mac_address_handler].
Qed.

(** C2 (the code departs from it): the dummy call should not change the
    answer.  On [00:1A:2B:3C:4D:5E] the function answers [False] with the
    call and [True] without it. *)
Theorem C2_dummy_call_changes_outcome :
  is_valid_mac_address example_mac = Ok false /\
  is_valid_mac_address_without_dummy example_mac = Ok true.
Proof.
  split; [apply is_valid_mac_address_handler|].
  rewrite without_dummy_validates.
  rewrite (proj2 (validate_parts_spec _) example_mac_well_formed). reflexivity.
Qed.

(** C3: a string that does not have exactly six colon-separated parts,
    or one of whose parts does not have length 2 or holds a character
    that is not a hexadecimal digit, is rejected:
    [is_valid_mac_address] returns [False]. *)
Theorem C3_malformed_rejected (s : list N) (parts : list (list N)) :
  parts_of s parts ->
  length parts <> 6%nat \/
  Exists (fun p => length p <> 2%nat \/ Exists (fun c => ~ hexdigit c) p) parts ->
  is_valid_mac_address s = Ok false.
Proof.
  intros Hparts Hbad.
  assert (Hv : validate_parts s = false).
  { apply not_true_is_false. intros Hv.
    apply validate_parts_spec in Hv as (parts' & Hp' & Hlen & Hall).
    apply parts_of_split in Hparts, Hp'. subst parts'. subst parts.
    destruct Hbad as [Hbad|Hbad]; [contradiction|].
    apply List.Exists_exists in Hbad as (p & Hin & Hp).
    rewrite List.Forall_forall in Hall. destruct (Hall p Hin) as [Hl Hh].
    destruct Hp as [Hp|Hp]; [contradiction|].
    apply List.Exists_exists in Hp as (c & Hc & Hnot).
    rewrite List.Forall_forall in Hh. exact (Hnot (Hh c Hc)). }
  unfold is_valid_mac_address.
  destruct (Socket.inet_aton _) as [bytes|e] eqn:Hdummy.
  - rewrite Hv. reflexivity.
  - rewrite dummy_call_raises in Hdummy. inversion Hdummy; subst e. reflexivity.
Qed.

Lemma C3_malformed_rejected_witness :
  parts_of (lit "not-a-mac") [lit "not-a-mac"] /\
  length [lit "not-a-mac"] <> 6%nat /\
  is_valid_mac_address (lit "not-a-mac") = Ok false.
Proof.
  assert (Hp : parts_of (lit "not-a-mac") [lit "not-a-mac"])
    by (apply parts_of_split; vm_compute; reflexivity).
  split; [exact Hp|]. split; [simpl; lia|].
  apply (C3_malformed_rejected (lit "not-a-mac") [lit "not-a-mac"] Hp).
  left. simpl. lia.
Defined.

(** C10: [is_valid_mac_address] returns a boolean on every string; no
    exception leaves it. *)
Theorem C10_is_valid_mac_address_total (s : list N) :
  exists b : bool, is_valid_mac_address s = Ok b.
Proof.
  unfold is_valid_mac_address.
  destruct (Socket.inet_aton _) as [bytes|e] eqn:Hdummy; [eexists; reflexivity|].
  rewrite dummy_call_raises in Hdummy. inversion Hdummy; subst e.
  exists false. reflexivity.
Qed.

Arguments lit : simpl never.

(** ** Lemmas on the monad *)

Lemma logging_log_fst lv msg st : fst (logging_log lv msg st) = Ok tt.
Proof. unfold logging_log. destruct (level st <=? lv); reflexivity. Qed.

Lemma logging_log_stdout lv msg st :
  stdout (snd (logging_log lv msg st)) = stdout st.
Proof. unfold logging_log. destruct (level st <=? lv); reflexivity. Qed.

Lemma logging_log_level lv msg st :
  level (snd (logging_log lv msg st)) = level st.
Proof. unfold logging_log. destruct (level st <=? lv); reflexivity. Qed.

Lemma logging_log_inv lv msg st :
  exists st', logging_log lv msg st = (Ok tt, st') /\ stdout st' = stdout st
              /\ level st' = level st.
Proof.
  exists (snd (logging_log lv msg st)).
  rewrite logging_log_stdout, logging_log_level. split; [|split; reflexivity].
  rewrite (surjective_pairing (logging_log lv msg st)) at 1.
  rewrite logging_log_fst. reflexivity.
Qed.

(** ** The handler and the block it guards *)

Lemma raise_for_status_spec r :
  (error_status r /\ exists msg, raise_for_status r = Raise (Exn HTTPError msg))
  \/ (~ error_status r /\ raise_for_status r = Ok tt).
Proof.
  unfold raise_for_status, error_status.
  destruct (Z.leb_spec 400 (status_code r)), (Z.ltb_spec (status_code r) 500);
    simpl; [left; split; [lia|eexists; reflexivity]| | |].
  - destruct (Z.leb_spec 500 (status_code r)), (Z.ltb_spec (status_code r) 600);
      simpl; try lia; [left|right]; (split; [lia|]); [eexists|]; reflexivity.
  - destruct (Z.leb_spec 500 (status_code r)); simpl; [lia|].
    right. split; [lia|reflexivity].
  - destruct (Z.leb_spec 500 (status_code r)); simpl; [lia|].
    right. split; [lia|reflexivity].
Qed.

(** A handled exception leaves [None] and one error record. *)
Lemma lookup_handler_catches e st :
  isinstance e is_Exception = true ->
  exists msg, lookup_handler e st = (Ok PNone, snd (logging_log ERROR msg st)).
Proof.
  intros He. unfold lookup_handler.
  destruct (isinstance e is_RequestException);
    [|destruct (isinstance e is_ValueError); [|rewrite He]];
    eexists; unfold bind, ret, logging_error;
    rewrite (surjective_pairing (logging_log ERROR _ st)), logging_log_fst;
    reflexivity.
Qed.

(** The end of the [try] block, from the decoded document on: it
    returns [result.company] or [None], or raises an [Exception]; the
    latter only when there is no such field. *)
Lemma extract_outcome (msg : list N) (data : pyvalue) (st : state) :
  let m := (c <- lift (has_company data) ;;
            if (c : bool) then
              r <- lift (getitem data (lit "result")) ;;
              lift (getitem r (lit "company"))
            else logging_warning msg ;; ret PNone) in
  (exists st', m st = (Ok (company_of data), st')
               /\ stdout st' = stdout st /\ level st' = level st)
  \/ (exists e, m st = (Raise e, st)
                /\ isinstance e is_Exception = true /\ company_of data = PNone).
Proof.
  cbv zeta. unfold bind, lift, ret, logging_warning.
  destruct (logging_log_inv WARNING msg st) as (st' & Hlog & Hout & Hlev).
  assert (Helse : exists st', (let (r, st0) := logging_log WARNING msg st in
                               match r with
                               | Ok _ => (Ok PNone, st0)
                               | Raise e => (Raise e, st0)
                               end) = (Ok PNone, st')
                   /\ stdout st' = stdout st /\ level st' = level st).
  { exists st'. rewrite Hlog. auto. }
  destruct data as [|b|z|f|s|l|d]; unfold has_company, truthy.
  - left. exact Helse.
  - destruct b; simpl; [right; eexists; split; [reflexivity|split; reflexivity]|].
    left. exact Helse.
  - destruct (z =? 0); simpl; [left; exact Helse|].
    right; eexists; split; [reflexivity|split; reflexivity].
  - destruct f; simpl; first [left; exact Helse
      | right; eexists; split; [reflexivity|split; reflexivity]].
  - destruct (bool_decide (s = [])); simpl; [left; exact Helse|].
    destruct (contains (lit "result") s); simpl; [|left; exact Helse].
    right; eexists; split; [reflexivity|split; reflexivity].
  - destruct (bool_decide (l = [])); simpl; [left; exact Helse|].
    destruct (existsb (is_str (lit "result")) l); simpl; [|left; exact Helse].
    right; eexists; split; [reflexivity|split; reflexivity].
  - destruct (bool_decide (d = ∅)) eqn:Hd; simpl.
    + apply bool_decide_eq_true in Hd. subst d. rewrite lookup_empty.
      left. exact Helse.
    + destruct (d !! lit "result") as [r|] eqn:Hr; simpl;
        [|rewrite ?bool_decide_eq_false_2 by (intros [? ?]; discriminate);
          left; exact Helse].
      rewrite ?bool_decide_eq_true_2 by eauto. rewrite ?Hr.
      destruct r as [|b|z|f|s|l|r]; simpl;
        try (right; eexists; split; [reflexivity|split; reflexivity]).
      * destruct (contains (lit "company") s); simpl; [|left; exact Helse].
        right; eexists; split; [reflexivity|split; reflexivity].
      * destruct (existsb (is_str (lit "company")) l); simpl; [|left; exact Helse].
        right; eexists; split; [reflexivity|split; reflexivity].
      * destruct (r !! lit "company") as [v|] eqn:Hv; simpl.
        -- rewrite ?bool_decide_eq_true_2 by eauto. rewrite ?Hr. simpl.
           rewrite ?Hv. left. exists st. auto.
        -- rewrite ?bool_decide_eq_false_2 by (intros [? ?]; discriminate).
           left. exact Helse.
Qed.

Lemma bind_lift_Ok {A B} (r : pyresult A) (a : A) (k : A -> M B) st :
  r = Ok a -> bind (lift r) k st = k a st.
Proof. intros ->. reflexivity. Qed.

Lemma bind_lift_Raise {A B} (r : pyresult A) (e : exn) (k : A -> M B) st :
  r = Raise e -> bind (lift r) k st = (Raise e, st).
Proof. intros ->. reflexivity. Qed.

Lemma bind_logging_log {B} lv msg (k : unit -> M B) st :
  bind (logging_log lv msg) k st = k tt (snd (logging_log lv msg st)).
Proof.
  unfold bind. rewrite (surjective_pairing (logging_log lv msg st)).
  rewrite logging_log_fst. reflexivity.
Qed.

Lemma error_status_test r :
  (400 <=? status_code r) && (status_code r <? 600) = true <-> error_status r.
Proof. unfold error_status. rewrite andb_true_iff, Z.leb_le, Z.ltb_lt. tauto. Qed.

Section Resolver.

Variable requests_get : list N -> pyresult Response.
Variable mac : list N.

(** What [lookup_mac_vendor] returns and what it leaves: the value
    [vendor_of], standard output and the logger's level untouched. *)
Lemma lookup_mac_vendor_value (st : state) :
  http_behaves requests_get mac ->
  exists st', lookup_mac_vendor requests_get mac st
              = (Ok (vendor_of requests_get mac), st')
              /\ stdout st' = stdout st /\ level st' = level st.
Proof.
  intros [Hget Hjson].
  assert (Hcatch : forall e st1, isinstance e is_Exception = true ->
            stdout st1 = stdout st -> level st1 = level st ->
            vendor_of requests_get mac = PNone ->
            exists st', lookup_handler e st1 = (Ok (vendor_of requests_get mac), st')
                        /\ stdout st' = stdout st /\ level st' = level st).
  { intros e st1 He Hout Hlev ->.
    destruct (lookup_handler_catches e st1 He) as [msg ->].
    eexists. split; [reflexivity|].
    rewrite logging_log_stdout, logging_log_level. auto. }
  unfold lookup_mac_vendor, try_except, lookup_body, logging_debug.
  rewrite bind_logging_log.
  set (st1 := snd (logging_log DEBUG _ st)).
  assert (Hout1 : stdout st1 = stdout st) by apply logging_log_stdout.
  assert (Hlev1 : level st1 = level st) by apply logging_log_level.
  clearbody st1.
  destruct (requests_get (format_url mac)) as [resp|e] eqn:Hresp.
  2:{ rewrite (bind_lift_Raise _ e) by reflexivity.
      apply Hcatch; auto. unfold vendor_of. rewrite Hresp. reflexivity. }
  rewrite (bind_lift_Ok _ resp) by reflexivity.
  destruct (raise_for_status_spec resp) as [[Herr [msg Hraise]]|[Hok Hraise]].
  { rewrite (bind_lift_Raise _ _ _ _ Hraise).
    apply Hcatch; auto. unfold vendor_of. rewrite Hresp.
    rewrite (proj2 (error_status_test resp) Herr). reflexivity. }
  rewrite (bind_lift_Ok _ _ _ _ Hraise).
  assert (Hv : vendor_of requests_get mac
               = match json resp with Ok data => company_of data | Raise _ => PNone end).
  { unfold vendor_of. rewrite Hresp.
    destruct ((400 <=? status_code resp) && (status_code resp <? 600)) eqn:Ht;
      [|reflexivity].
    apply error_status_test in Ht. contradiction. }
  specialize (Hjson resp eq_refl Hok).
  destruct (json resp) as [data|e] eqn:Hdata.
  2:{ rewrite (bind_lift_Raise _ e) by reflexivity. apply Hcatch; auto. }
  rewrite (bind_lift_Ok _ data) by reflexivity.
  destruct (extract_outcome
              (lit "Vendor information not found for MAC address: " ++ mac)
              data st1) as [(st' & Hm & Hout & Hlev)|(e & Hm & He & Hnone)];
    cbv zeta in Hm; rewrite Hm.
  - exists st'. rewrite Hv. split; [reflexivity|]. split; congruence.
  - apply Hcatch; auto. rewrite Hv. exact Hnone.
Qed.

End Resolver.

Lemma company_of_lacks data : ~ has_result_company data -> company_of data = PNone.
Proof.
  intros Hno. destruct data as [| | | | | |d]; try reflexivity. simpl.
  destruct (d !! lit "result") as [[| | | | | |r]|] eqn:Hr; try reflexivity.
  destruct (r !! lit "company") as [v|] eqn:Hv; [|reflexivity].
  exfalso. apply Hno. exists v, d, r. auto.
Qed.

Lemma company_of_has data v : company_is data v -> company_of data = v.
Proof. intros (d & r & -> & Hr & Hv). simpl. rewrite Hr, Hv. reflexivity. Qed.

Lemma RequestException_is_Exception e :
  isinstance e is_RequestException = true -> isinstance e is_Exception = true.
Proof. destruct e as [[] ?|]; simpl; congruence. Qed.

Lemma not_found_run_behaves get mac : not_found_run get mac -> http_behaves get mac.
Proof.
  intros (resp & data & Hget & _ & Hjson & _). split; [rewrite Hget; exact I|].
  intros resp' Hget' _. assert (resp' = resp) as -> by congruence.
  rewrite Hjson. exact I.
Qed.

Lemma not_found_run_value get mac : not_found_run get mac -> vendor_of get mac = PNone.
Proof.
  intros (resp & data & Hget & Hst & Hjson & Hno). unfold vendor_of.
  rewrite Hget, Hjson.
  destruct ((400 <=? status_code resp) && (status_code resp <? 600)); [reflexivity|].
  apply company_of_lacks, Hno.
Qed.

Lemma failed_run_behaves get mac : failed_run get mac -> http_behaves get mac.
Proof.
  intros [(e & Hget & He)|(resp & Hget & Herr)]; split; rewrite ?Hget; simpl.
  - apply RequestException_is_Exception, He.
  - intros resp' Hget'. congruence.
  - exact I.
  - intros resp' Hget' Hok. assert (resp' = resp) as -> by congruence.
    contradiction.
Qed.

Lemma failed_run_value get mac : failed_run get mac -> vendor_of get mac = PNone.
Proof.
  intros [(e & Hget & He)|(resp & Hget & Herr)]; unfold vendor_of; rewrite Hget.
  - reflexivity.
  - rewrite (proj2 (error_status_test resp) Herr). reflexivity.
Qed.

Lemma empty_result_doc_lacks : ~ has_result_company empty_result_doc.
Proof.
  intros (v & d & r & Hd & Hr & Hv). inversion Hd; subst d.
  rewrite lookup_singleton_eq in Hr. inversion Hr; subst r.
  rewrite lookup_empty in Hv. discriminate.
Qed.

Lemma company_doc_has v : company_is (company_doc v) v.
Proof.
  eexists _, _. split; [reflexivity|].
  split; apply lookup_singleton_eq.
Qed.

(** ** Claims on the resolver *)

(** C6, counterexample: a 200 response with [{"result": {}}] and a 500
    response both make [lookup_mac_vendor] return [None]. *)
Lemma C6_counterexample : ~ claim_C6.
Proof.
  intros H.
  apply (H (service 200 empty_result_doc) (service 500 PNone) example_mac initial).
  - exists (mkResponse 200 (Ok empty_result_doc)), empty_result_doc.
    split; [reflexivity|]. split; [simpl; lia|]. split; [reflexivity|].
    exact empty_result_doc_lacks.
  - right. eexists. split; [reflexivity|]. unfold non_2xx. simpl. lia.
  - vm_compute. reflexivity.
Qed.

(** C6, amended: [lookup_mac_vendor] returns the same value, [None],
    when the response lacks [result.company] and when the request failed
    (an error of the transport, or a status from 400 to 599); its result
    does not tell the two apart. *)
Theorem C6_not_found_and_failed_both_None get1 get2 mac st1 st2 :
  not_found_run get1 mac -> failed_run get2 mac ->
  fst (lookup_mac_vendor get1 mac st1) = Ok PNone /\
  fst (lookup_mac_vendor get2 mac st2) = Ok PNone.
Proof.
  intros H1 H2. split.
  - destruct (lookup_mac_vendor_value get1 mac st1 (not_found_run_behaves _ _ H1))
      as (st' & -> & _). rewrite (not_found_run_value _ _ H1). reflexivity.
  - destruct (lookup_mac_vendor_value get2 mac st2 (failed_run_behaves _ _ H2))
      as (st' & -> & _). rewrite (failed_run_value _ _ H2). reflexivity.
Qed.

(** The two outcomes leave different records in the log: a warning
    for the missing field, an error for the failed request. *)
Example lookup_logs_differ :
  List.map fst (log (snd (lookup_mac_vendor (service 200 empty_result_doc)
                            example_mac initial))) = [WARNING] /\
  List.map fst (log (snd (lookup_mac_vendor (service 500 PNone)
                            example_mac initial))) = [ERROR].
Proof. vm_compute. split; reflexivity. Qed.

(** C7: whatever the HTTP call does among success, an error status, an
    exception of the transport, a body that does not decode and an
    unexpected exception while the field is read, [lookup_mac_vendor]
    returns a value: no exception reaches its caller. *)
Theorem C7_lookup_never_raises get mac st :
  http_behaves get mac ->
  exists v st', lookup_mac_vendor get mac st = (Ok v, st').
Proof.
  intros H. destruct (lookup_mac_vendor_value get mac st H) as (st' & Heq & _).
  eauto.
Qed.

Lemma C6_not_found_and_failed_both_None_witness :
  not_found_run (service 200 empty_result_doc) example_mac /\
  failed_run (service 500 PNone) example_mac /\
  fst (lookup_mac_vendor (service 200 empty_result_doc) example_mac initial)
    = Ok PNone /\
  fst (lookup_mac_vendor (service 500 PNone) example_mac initial) = Ok PNone.
Proof.
  assert (H1 : not_found_run (service 200 empty_result_doc) example_mac).
  { exists (mkResponse 200 (Ok empty_result_doc)), empty_result_doc.
    split; [reflexivity|]. split; [simpl; lia|]. split; [reflexivity|].
    exact empty_result_doc_lacks. }
  assert (H2 : failed_run (service 500 PNone) example_mac).
  { right. exists (mkResponse 500 (Ok PNone)). split; [reflexivity|].
    unfold error_status. simpl. lia. }
  split; [exact H1|]. split; [exact H2|].
  exact (C6_not_found_and_failed_both_None
           (service 200 empty_result_doc) (service 500 PNone)
           example_mac initial initial H1 H2).
Defined.

Lemma C7_lookup_never_raises_witness :
  http_behaves unreachable example_mac /\
  exists v st', lookup_mac_vendor unreachable example_mac initial = (Ok v, st').
Proof.
  assert (H : http_behaves unreachable example_mac).
  { split; [reflexivity|]. intros resp Hresp. discriminate. }
  split; [exact H|].
  exact (C7_lookup_never_raises unreachable example_mac initial H).
Defined.

(** What [except Exception] does not catch goes through the resolver:
    the hypothesis of C7 is needed. *)
Example lookup_lets_KeyboardInterrupt_through :
  fst (lookup_mac_vendor (fun _ => Raise (Exn KeyboardInterrupt [])) example_mac initial)
  = Raise (Exn KeyboardInterrupt []).
Proof. vm_compute. reflexivity. Qed.

(** ** The driver *)

Section Driver.

Variable requests_get : list N -> pyresult Response.
Variable py_repr : pyvalue -> list N.
Variable stdout_encodes : N -> bool.

Lemma bind_ret {A B} (a : A) (k : A -> M B) st : bind (ret a) k st = k a st.
Proof. reflexivity. Qed.

Lemma print_encodable enc text st :
  encodable enc text = true ->
  print enc text st = (Ok tt, mkState (stdout st ++ [text]) (log st) (level st)).
Proof. intros H. unfold print. rewrite H. reflexivity. Qed.

Lemma print_not_encodable enc text st :
  encodable enc text = false ->
  exists msg, print enc text st = (Raise (Exn UnicodeEncodeError msg), st).
Proof. intros H. unfold print. rewrite H. eexists. reflexivity. Qed.

(** The fixed line is ASCII: every standard output encodes it. *)
Lemma not_found_encodable enc :
  encodable enc (lit "Vendor information not found.") = true.
Proof. reflexivity. Qed.

(** [main_lookup] comes down to one call of [print], on a text that the
    truth value of what the resolver returned decides. *)
Lemma main_lookup_prints (mac : list N) (st : state) :
  http_behaves requests_get mac ->
  exists st1,
    stdout st1 = stdout st /\
    main_lookup requests_get py_repr stdout_encodes mac st
    = print stdout_encodes
        (if truthy (vendor_of requests_get mac)
         then lit "Vendor: " ++ format_value py_repr (vendor_of requests_get mac)
         else lit "Vendor information not found.") st1.
Proof.
  intros Hb. unfold main_lookup, logging_info. rewrite bind_logging_log.
  set (st1 := snd (logging_log INFO _ st)).
  assert (Hout1 : stdout st1 = stdout st) by apply logging_log_stdout.
  clearbody st1.
  destruct (lookup_mac_vendor_value requests_get mac st1 Hb)
    as (st2 & Hlook & Hout2 & _).
  unfold bind at 1. rewrite Hlook. exists st2.
  split; [congruence|].
  destruct (truthy (vendor_of requests_get mac)); reflexivity.
Qed.

(** Nothing to report: the fixed line is printed. *)
Lemma main_lookup_not_found (mac : list N) (st : state) :
  http_behaves requests_get mac ->
  truthy (vendor_of requests_get mac) = false ->
  exists st',
    main_lookup requests_get py_repr stdout_encodes mac st = (Ok tt, st') /\
    stdout st' = stdout st ++ [lit "Vendor information not found."].
Proof.
  intros Hb Ht. destruct (main_lookup_prints mac st Hb) as (st1 & Hout & ->).
  rewrite Ht.
  rewrite print_encodable by apply not_found_encodable.
  eexists. split; [reflexivity|]. cbn [stdout]. rewrite Hout. reflexivity.
Qed.

(** A vendor to report, in a text that standard output encodes. *)
Lemma main_lookup_vendor (mac : list N) (st : state) :
  http_behaves requests_get mac ->
  truthy (vendor_of requests_get mac) = true ->
  encodable stdout_encodes
    (lit "Vendor: " ++ format_value py_repr (vendor_of requests_get mac)) = true ->
  exists st',
    main_lookup requests_get py_repr stdout_encodes mac st = (Ok tt, st') /\
    stdout st' = stdout st ++
      [lit "Vendor: " ++ format_value py_repr (vendor_of requests_get mac)].
Proof.
  intros Hb Ht Henc. destruct (main_lookup_prints mac st Hb) as (st1 & Hout & ->).
  rewrite Ht. rewrite print_encodable by exact Henc.
  eexists. split; [reflexivity|]. cbn [stdout]. rewrite Hout. reflexivity.
Qed.

(** A vendor to report, in a text that standard output cannot encode. *)
Lemma main_lookup_unencodable (mac : list N) (st : state) :
  http_behaves requests_get mac ->
  truthy (vendor_of requests_get mac) = true ->
  encodable stdout_encodes
    (lit "Vendor: " ++ format_value py_repr (vendor_of requests_get mac)) = false ->
  exists msg st',
    main_lookup requests_get py_repr stdout_encodes mac st
    = (Raise (Exn UnicodeEncodeError msg), st') /\
    stdout st' = stdout st.
Proof.
  intros Hb Ht Henc. destruct (main_lookup_prints mac st Hb) as (st1 & Hout & ->).
  rewrite Ht.
  destruct (print_not_encodable stdout_encodes _ st1 Henc) as [msg ->].
  eauto.
Qed.

(** A rejected address ends the run: exit status 1, nothing printed. *)
Lemma main_rejects (args : Namespace) :
  is_valid_mac_address (strip (mac_address args)) = Ok false ->
  exists st, main requests_get py_repr stdout_encodes args initial = (Raise (SystemExit 1), st)
             /\ stdout st = [].
Proof.
  intros Hv. unfold main.
  destruct (verbose args).
  - unfold bind at 1. unfold bind at 1. unfold setLevel at 1.
    unfold logging_debug.
    destruct (logging_log_inv DEBUG (lit "Verbose logging enabled.")
                (mkState (stdout initial) (log initial) DEBUG))
      as (st1 & -> & Hout & _).
    rewrite (bind_lift_Ok _ false) by exact Hv. simpl negb. cbv iota.
    unfold logging_error. unfold bind at 1. unfold bind at 1.
    destruct (logging_log_inv ERROR
      (lit "Invalid MAC address format. Please use the format XX:XX:XX:XX:XX:XX.")
      st1) as (st2 & -> & Hout2 & _).
    eexists. split; [reflexivity|]. rewrite Hout2, Hout. reflexivity.
  - rewrite bind_ret. rewrite (bind_lift_Ok _ false) by exact Hv.
    simpl negb. cbv iota.
    unfold logging_error. unfold bind at 1. unfold bind at 1.
    destruct (logging_log_inv ERROR
      (lit "Invalid MAC address format. Please use the format XX:XX:XX:XX:XX:XX.")
      initial) as (st2 & -> & Hout2 & _).
    eexists. split; [reflexivity|]. rewrite Hout2. reflexivity.
Qed.

End Driver.

(** ** Computations that do not look at the log *)

Lemma insensitive_ret {A} (a : A) : insensitive (ret a).
Proof. intros st1 st2 H. split; [reflexivity|exact H]. Qed.

Lemma insensitive_lift {A} (r : pyresult A) : insensitive (lift r).
Proof. intros st1 st2 H. split; [reflexivity|exact H]. Qed.

Lemma insensitive_raise {A} (e : exn) : insensitive (@raise A e).
Proof. apply insensitive_lift. Qed.

Lemma insensitive_sys_exit {A} (code : Z) : insensitive (@sys_exit A code).
Proof. apply insensitive_lift. Qed.

Lemma insensitive_logging_log lv msg : insensitive (logging_log lv msg).
Proof.
  intros st1 st2 H. rewrite !logging_log_fst, !logging_log_stdout.
  split; [reflexivity|exact H].
Qed.

Lemma insensitive_setLevel lv : insensitive (setLevel lv).
Proof. intros st1 st2 H. split; [reflexivity|exact H]. Qed.

Lemma insensitive_print enc text : insensitive (print enc text).
Proof.
  intros st1 st2 H. unfold print.
  destruct (encodable enc text); (split; [reflexivity|]); simpl; [|exact H].
  rewrite H. reflexivity.
Qed.

Lemma insensitive_bind {A B} (m : M A) (k : A -> M B) :
  insensitive m -> (forall a, insensitive (k a)) -> insensitive (bind m k).
Proof.
  intros Hm Hk st1 st2 H. unfold bind.
  destruct (Hm st1 st2 H) as [Hr Hs].
  destruct (m st1) as [[a1|e1] s1], (m st2) as [[a2|e2] s2];
    simpl in Hr, Hs; try discriminate.
  - inversion Hr; subst a2. apply Hk, Hs.
  - inversion Hr; subst e2. split; [reflexivity|exact Hs].
Qed.

Lemma insensitive_try_except {A} (body : M A) (handler : exn -> M A) :
  insensitive body -> (forall e, insensitive (handler e)) ->
  insensitive (try_except body handler).
Proof.
  intros Hm Hk st1 st2 H. unfold try_except.
  destruct (Hm st1 st2 H) as [Hr Hs].
  destruct (body st1) as [[a1|e1] s1], (body st2) as [[a2|e2] s2];
    simpl in Hr, Hs; try discriminate.
  - inversion Hr; subst a2. split; [reflexivity|exact Hs].
  - inversion Hr; subst e2. apply Hk, Hs.
Qed.

Create HintDb insens.
#[local] Hint Resolve insensitive_ret insensitive_lift insensitive_raise
  insensitive_sys_exit insensitive_logging_log insensitive_setLevel
  insensitive_print : insens.

(** Break a computation down to its primitives. *)
Ltac insens :=
  repeat first
    [ solve [auto with insens]
    | match goal with
      | |- forall _, _ => intro
      | |- insensitive (if ?c then _ else _) => destruct c
      | |- insensitive (bind _ _) => apply insensitive_bind
      | |- insensitive (try_except _ _) => apply insensitive_try_except
      end ].

Lemma insensitive_lookup_mac_vendor get mac :
  insensitive (lookup_mac_vendor get mac).
Proof.
  unfold lookup_mac_vendor, lookup_body, lookup_handler,
    logging_debug, logging_warning, logging_error.
  insens.
Qed.

Lemma insensitive_main_lookup get repr enc mac :
  insensitive (main_lookup get repr enc mac).
Proof.
  unfold main_lookup, logging_info.
  pose proof (insensitive_lookup_mac_vendor get mac). insens.
Qed.

Lemma insensitive_main get repr enc args : insensitive (main get repr enc args).
Proof.
  unfold main, logging_debug, logging_error.
  pose proof (insensitive_main_lookup get repr enc (strip (mac_address args))).
  insens.
Qed.

(** ** Claims on the driver *)

(** C4: when the trimmed address fails the validation, the run ends
    with exit status 1 and nothing on standard output. *)
Theorem C4_invalid_address_exits_1 get repr enc (args : Namespace) :
  is_valid_mac_address (strip (mac_address args)) = Ok false ->
  fst (run get repr enc args) = 1 /\ stdout (snd (run get repr enc args)) = [].
Proof.
  intros Hv. unfold run.
  destruct (main_rejects get repr enc args Hv) as (st & -> & Hout).
  split; [reflexivity|exact Hout].
Qed.

Lemma C4_invalid_address_exits_1_witness :
  is_valid_mac_address (strip (lit "not-a-mac")) = Ok false /\
  fst (run unreachable (fun _ => []) (fun _ => true) (mkNamespace (lit "not-a-mac") false)) = 1 /\
  stdout (snd (run unreachable (fun _ => []) (fun _ => true) (mkNamespace (lit "not-a-mac") false)))
  = [].
Proof.
  assert (H : is_valid_mac_address (strip (lit "not-a-mac")) = Ok false)
    by (vm_compute; reflexivity).
  split; [exact H|].
  exact (C4_invalid_address_exits_1 unreachable (fun _ => []) (fun _ => true)
           (mkNamespace (lit "not-a-mac") false) H).
Defined.

Lemma main_quiet get repr enc mac st :
  main get repr enc (mkNamespace mac false) st = after_verbose get repr enc mac st.
Proof. reflexivity. Qed.

Lemma main_verbose get repr enc mac st :
  main get repr enc (mkNamespace mac true) st
  = after_verbose get repr enc mac
      (snd (logging_log DEBUG (lit "Verbose logging enabled.")
              (mkState (stdout st) (log st) DEBUG))).
Proof.
  unfold main. cbn [verbose mac_address].
  unfold bind at 1. unfold bind at 1. unfold setLevel, logging_debug.
  rewrite (surjective_pairing (logging_log DEBUG _ _)), logging_log_fst.
  reflexivity.
Qed.

Lemma insensitive_after_verbose get repr enc mac :
  insensitive (after_verbose get repr enc mac).
Proof.
  unfold after_verbose, logging_error.
  pose proof (insensitive_main_lookup get repr enc (strip mac)).
  insens.
Qed.

Lemma run_fst get repr enc args :
  fst (run get repr enc args) = exit_status (fst (main get repr enc args initial)).
Proof. unfold run. destruct (main get repr enc args initial). reflexivity. Qed.

Lemma run_snd get repr enc args :
  snd (run get repr enc args) = snd (main get repr enc args initial).
Proof. unfold run. destruct (main get repr enc args initial). reflexivity. Qed.

(** C8: two runs that differ only in the flag [-v] print the same
    lines and end with the same exit status. *)
Theorem C8_verbose_same_output get repr enc (mac : list N) :
  fst (run get repr enc (mkNamespace mac true))
  = fst (run get repr enc (mkNamespace mac false)) /\
  stdout (snd (run get repr enc (mkNamespace mac true)))
  = stdout (snd (run get repr enc (mkNamespace mac false))).
Proof.
  rewrite !run_fst, !run_snd, main_verbose, main_quiet.
  destruct (insensitive_after_verbose get repr enc mac
              (snd (logging_log DEBUG (lit "Verbose logging enabled.")
                      (mkState (stdout initial) (log initial) DEBUG)))
              initial) as [Hr Hs].
  - rewrite logging_log_stdout. reflexivity.
  - rewrite Hr. split; [reflexivity|exact Hs].
Qed.

(** C5, counterexample: status 300 is outside 200 to 299, yet
    [raise_for_status] lets it through; with the body
    [{"result": {"company": "Acme Corp"}}] the line printed is
    [Vendor: Acme Corp]. *)
Lemma C5_counterexample : ~ claim_C5.
Proof.
  intros H.
  destruct (H (service 300 (company_doc (PStr (lit "Acme Corp")))) (fun _ => []) (fun _ => true)
              example_mac initial
              (mkResponse 300 (Ok (company_doc (PStr (lit "Acme Corp")))))
              example_mac_well_formed eq_refl) as [_ Hout].
  - left. unfold non_2xx. simpl. lia.
  - vm_compute in Hout. discriminate.
Qed.

(** C5, amended: once [main] is past the validation, if the service
    answers with a status from 400 to 599, or with a body that lacks
    [result.company], the only line printed is
    [Vendor information not found.] and [main] returns, which gives exit
    status 0. *)
Theorem C5_error_or_missing_prints_not_found get repr enc mac st resp :
  get (format_url mac) = Ok resp ->
  error_status resp \/
  (exists data, json resp = Ok data /\ ~ has_result_company data) ->
  exit_status (fst (main_lookup get repr enc mac st)) = 0 /\
  stdout (snd (main_lookup get repr enc mac st))
  = stdout st ++ [lit "Vendor information not found."].
Proof.
  intros Hget Hcase.
  assert (Hb : http_behaves get mac).
  { split; [rewrite Hget; exact I|]. intros resp' Hget' Hok.
    assert (resp' = resp) as -> by congruence.
    destruct Hcase as [Herr|(data & -> & _)]; [contradiction|exact I]. }
  assert (Hv : vendor_of get mac = PNone).
  { unfold vendor_of. rewrite Hget.
    destruct ((400 <=? status_code resp) && (status_code resp <? 600)) eqn:Ht;
      [reflexivity|].
    destruct Hcase as [Herr|(data & -> & Hno)].
    - apply error_status_test in Herr. congruence.
    - apply company_of_lacks, Hno. }
  destruct (main_lookup_not_found get repr enc mac st Hb) as (st' & -> & Hout);
    [rewrite Hv; reflexivity|].
  split; [reflexivity|exact Hout].
Qed.

Lemma C5_error_or_missing_prints_not_found_witness :
  service 500 PNone (format_url example_mac) = Ok (mkResponse 500 (Ok PNone)) /\
  error_status (mkResponse 500 (Ok PNone)) /\
  exit_status (fst (main_lookup (service 500 PNone) (fun _ => []) (fun _ => true) example_mac initial))
  = 0 /\
  stdout (snd (main_lookup (service 500 PNone) (fun _ => []) (fun _ => true) example_mac initial))
  = stdout initial ++ [lit "Vendor information not found."].
Proof.
  assert (He : error_status (mkResponse 500 (Ok PNone)))
    by (unfold error_status; simpl; lia).
  split; [reflexivity|]. split; [exact He|].
  exact (C5_error_or_missing_prints_not_found (service 500 PNone) (fun _ => []) (fun _ => true)
           example_mac initial (mkResponse 500 (Ok PNone)) eq_refl (or_introl He)).
Defined.

(** The branch on the truth value, past the validation: a field
    [result.company] whose value is false in Python (an empty string,
    [None], zero, an empty list or object) is reported as not found. *)
Lemma main_lookup_falsy_company get repr enc mac st resp data v :
  get (format_url mac) = Ok resp -> ~ error_status resp ->
  json resp = Ok data -> company_is data v -> truthy v = false ->
  stdout (snd (main_lookup get repr enc mac st))
  = stdout st ++ [lit "Vendor information not found."].
Proof.
  intros Hget Hok Hjson Hc Hfalse.
  assert (Hb : http_behaves get mac).
  { split; [rewrite Hget; exact I|]. intros resp' Hget' _.
    assert (resp' = resp) as -> by congruence. rewrite Hjson. exact I. }
  assert (Hv : vendor_of get mac = v).
  { unfold vendor_of. rewrite Hget, Hjson.
    destruct ((400 <=? status_code resp) && (status_code resp <? 600)) eqn:Ht.
    - apply error_status_test in Ht. contradiction.
    - apply company_of_has, Hc. }
  destruct (main_lookup_not_found get repr enc mac st Hb) as (st' & -> & Hout);
    [rewrite Hv; exact Hfalse|].
  exact Hout.
Qed.

(** And a value that is true is printed after [Vendor: ], when
    standard output encodes it. *)
Lemma main_lookup_truthy_company get repr enc mac st resp data v :
  get (format_url mac) = Ok resp -> ~ error_status resp ->
  json resp = Ok data -> company_is data v -> truthy v = true ->
  encodable enc (lit "Vendor: " ++ format_value repr v) = true ->
  stdout (snd (main_lookup get repr enc mac st))
  = stdout st ++ [lit "Vendor: " ++ format_value repr v].
Proof.
  intros Hget Hok Hjson Hc Htrue Henc.
  assert (Hb : http_behaves get mac).
  { split; [rewrite Hget; exact I|]. intros resp' Hget' _.
    assert (resp' = resp) as -> by congruence. rewrite Hjson. exact I. }
  assert (Hv : vendor_of get mac = v).
  { unfold vendor_of. rewrite Hget, Hjson.
    destruct ((400 <=? status_code resp) && (status_code resp <? 600)) eqn:Ht.
    - apply error_status_test in Ht. contradiction.
    - apply company_of_has, Hc. }
  destruct (main_lookup_vendor get repr enc mac st Hb) as (st' & -> & Hout);
    rewrite ?Hv; auto.
  rewrite Hv in Hout. exact Hout.
Qed.

(** C9: when the service returns a response with a status from 200 to
    299 whose JSON has a field [result.company] with a value that is false
    in Python (the empty string, [null], ...), [lookup_mac_vendor] returns
    that value, and the part of [main] that receives it prints
    [Vendor information not found.], not [Vendor: ] followed by the
    value: [main] branches on the truth value of what was returned, not
    on its presence. *)
Theorem C9_falsy_company_prints_not_found get repr enc mac st resp data v :
  get (format_url mac) = Ok resp -> 200 <= status_code resp < 300 ->
  json resp = Ok data -> company_is data v -> truthy v = false ->
  fst (lookup_mac_vendor get mac st) = Ok v /\
  fst (main_lookup get repr enc mac st) = Ok tt /\
  stdout (snd (main_lookup get repr enc mac st))
  = stdout st ++ [lit "Vendor information not found."] /\
  stdout (snd (main_lookup get repr enc mac st))
  <> stdout st ++ [lit "Vendor: " ++ format_value repr v].
Proof.
  intros Hget Hst Hjson Hc Hfalse.
  assert (Hb : http_behaves get mac).
  { split; [rewrite Hget; exact I|]. intros resp' Hget' _.
    assert (resp' = resp) as -> by congruence. rewrite Hjson. exact I. }
  assert (Hv : vendor_of get mac = v).
  { unfold vendor_of. rewrite Hget, Hjson.
    destruct ((400 <=? status_code resp) && (status_code resp <? 600)) eqn:Ht.
    - apply error_status_test in Ht. unfold error_status in Ht. lia.
    - apply company_of_has, Hc. }
  split.
  { destruct (lookup_mac_vendor_value get mac st Hb) as (st' & -> & _).
    rewrite Hv. reflexivity. }
  destruct (main_lookup_not_found get repr enc mac st Hb) as (st' & -> & Hout);
    [rewrite Hv; exact Hfalse|].
  split; [reflexivity|]. split; [exact Hout|].
  cbn [snd]. rewrite Hout. intros H. apply app_inv_head in H.
  apply (f_equal (fun lines => List.map (firstn 7) lines)) in H.
  vm_compute in H. discriminate.
Qed.

Lemma C9_falsy_company_prints_not_found_witness :
  service 200 (company_doc (PStr [])) (format_url example_mac)
  = Ok (mkResponse 200 (Ok (company_doc (PStr [])))) /\
  200 <= status_code (mkResponse 200 (Ok (company_doc (PStr [])))) < 300 /\
  company_is (company_doc (PStr [])) (PStr []) /\
  truthy (PStr []) = false /\
  fst (lookup_mac_vendor (service 200 (company_doc (PStr []))) example_mac initial)
  = Ok (PStr []) /\
  fst (main_lookup (service 200 (company_doc (PStr []))) (fun _ => [])
         (fun _ => true) example_mac initial) = Ok tt /\
  stdout (snd (main_lookup (service 200 (company_doc (PStr []))) (fun _ => [])
                 (fun _ => true) example_mac initial))
  = stdout initial ++ [lit "Vendor information not found."] /\
  stdout (snd (main_lookup (service 200 (company_doc (PStr []))) (fun _ => [])
                 (fun _ => true) example_mac initial))
  <> stdout initial ++ [lit "Vendor: " ++ format_value (fun _ => []) (PStr [])].
Proof.
  assert (Hs : 200 <= status_code (mkResponse 200 (Ok (company_doc (PStr []))))
               < 300) by (simpl; lia).
  split; [reflexivity|]. split; [exact Hs|].
  split; [apply company_doc_has|]. split; [reflexivity|].
  exact (C9_falsy_company_prints_not_found
           (service 200 (company_doc (PStr []))) (fun _ => []) (fun _ => true)
           example_mac initial (mkResponse 200 (Ok (company_doc (PStr []))))
           (company_doc (PStr [])) (PStr [])
           eq_refl Hs eq_refl (company_doc_has _) eq_refl).
Defined.


(** * Further properties of the code *)

(** ** The checks of the validator (lines 40 to 48) *)

(** X1: the statements of [is_valid_mac_address] after the dummy call
    accept a string exactly when it is six colon-separated parts of two
    hexadecimal digits each. *)
Theorem X1_checks_accept_exactly_well_formed (s : list N) :
  validate_parts s = true <-> well_formed_mac s.
Proof. exact (validate_parts_spec s). Qed.

Lemma octet_chars p :
  octet_ok p -> exists a b, p = [a; b] /\ hexdigit a /\ hexdigit b.
Proof.
  intros [Hlen Hhex]. destruct p as [|a [|b [|c p]]]; try discriminate.
  inversion Hhex as [|? ? Ha Hb']; subst. inversion Hb' as [|? ? Hb _]; subst.
  eauto.
Qed.

(** X2: a string that these checks accept has exactly 17 characters,
    each a hexadecimal digit or a colon. *)
Theorem X2_accepted_shape (s : list N) :
  validate_parts s = true -> length s = 17%nat /\ Forall mac_char s.
Proof.
  intros H. apply validate_parts_spec in H as (parts & (_ & _ & ->) & Hlen & Hall).
  destruct parts as [|p1 [|p2 [|p3 [|p4 [|p5 [|p6 [|p7 parts]]]]]]];
    try discriminate.
  repeat match goal with
         | H : Forall octet_ok (_ :: _) |- _ =>
             let Hp := fresh "Hp" in
             let Hr := fresh "Hr" in
             inversion H as [|? ? Hp Hr]; subst; clear H;
             apply octet_chars in Hp as (? & ? & -> & ? & ?)
         end.
  split; [reflexivity|].
  change (lit ":") with [58%N]. simpl.
  unfold mac_char.
  repeat (apply List.Forall_cons; [first [left; assumption|right; reflexivity]|]).
  apply List.Forall_nil.
Qed.

Lemma X2_accepted_shape_witness :
  validate_parts example_mac = true /\
  length example_mac = 17%nat /\ Forall mac_char example_mac.
Proof.
  assert (H : validate_parts example_mac = true) by (vm_compute; reflexivity).
  split; [exact H|]. exact (X2_accepted_shape example_mac H).
Defined.

Lemma split_map (f : N -> N) (s : list N) :
  (forall c, f c = 58%N <-> c = 58%N) ->
  split 58 (List.map f s) = List.map (List.map f) (split 58 s).
Proof.
  intros Hf. induction s as [|c s IH]; [reflexivity|].
  cbn [List.map split]. rewrite IH.
  destruct (N.eqb_spec (f c) 58) as [Hc|Hc], (N.eqb_spec c 58) as [Hc'|Hc'].
  - reflexivity.
  - apply (proj1 (Hf c)) in Hc. contradiction.
  - apply (proj2 (Hf c)) in Hc'. contradiction.
  - pose proof (split_not_nil 58 s) as Hne.
    destruct (split 58 s) as [|p ps]; [congruence|reflexivity].
Qed.

Lemma check_octets_map (f : N -> N) (parts : list (list N)) :
  (forall c, hexdigit (f c) <-> hexdigit c) ->
  check_octets (List.map (List.map f) parts) = check_octets parts.
Proof.
  intros Hf. induction parts as [|p ps IH]; [reflexivity|].
  cbn [List.map]. rewrite !check_octets_cons, IH, length_map. f_equal. f_equal.
  induction p as [|c p IHp]; [reflexivity|].
  cbn [List.map forallb]. rewrite IHp. f_equal.
  apply eq_true_iff_eq. rewrite !char_in_hex. apply Hf.
Qed.

Lemma validate_parts_map (f : N -> N) (s : list N) :
  (forall c, f c = 58%N <-> c = 58%N) ->
  (forall c, hexdigit (f c) <-> hexdigit c) ->
  validate_parts (List.map f s) = validate_parts s.
Proof.
  intros H58 Hhex. unfold validate_parts.
  rewrite split_map by exact H58.
  rewrite check_octets_map by exact Hhex. rewrite length_map. reflexivity.
Qed.

Lemma ascii_lower_cases c :
  (65 <= c <= 90 /\ ascii_lower c = c + 32)%N
  \/ (~ (65 <= c <= 90) /\ ascii_lower c = c)%N.
Proof.
  unfold ascii_lower.
  destruct (N.leb_spec 65 c), (N.leb_spec c 90); simpl; (left + right); lia.
Qed.

Lemma ascii_upper_cases c :
  (97 <= c <= 122 /\ ascii_upper c = c - 32)%N
  \/ (~ (97 <= c <= 122) /\ ascii_upper c = c)%N.
Proof.
  unfold ascii_upper.
  destruct (N.leb_spec 97 c), (N.leb_spec c 122); simpl; (left + right); lia.
Qed.

(** X3: the checks do not look at the case of the letters: a string is
    accepted exactly when its lower-case form is, and exactly when its
    upper-case form is. *)
Theorem X3_checks_ignore_case (s : list N) :
  validate_parts (List.map ascii_lower s) = validate_parts s /\
  validate_parts (List.map ascii_upper s) = validate_parts s.
Proof.
  split; apply validate_parts_map; intros c; unfold hexdigit;
    first [destruct (ascii_lower_cases c) as [[Hc ->]|[Hc ->]]
          |destruct (ascii_upper_cases c) as [[Hc ->]|[Hc ->]]]; lia.
Qed.

(** ** The validator and the driver as they run *)

(** X4: [is_valid_mac_address] returns [False] on every string: the
    dummy call of [socket.inet_aton] raises [OSError] each time, and the
    handler answers before the checks are reached. *)
Theorem X4_is_valid_mac_address_always_False (s : list N) :
  is_valid_mac_address s = Ok false.
Proof. unfold is_valid_mac_address. rewrite dummy_call_raises. reflexivity. Qed.


(** ** The resolver *)

Lemma logging_log_skip lv msg st :
  lv < level st -> logging_log lv msg st = (Ok tt, st).
Proof.
  intros H. unfold logging_log.
  destruct (Z.leb_spec (level st) lv); [lia|reflexivity].
Qed.

Lemma logging_log_emit lv msg st :
  level st <= lv ->
  logging_log lv msg st
  = (Ok tt, mkState (stdout st) (log st ++ [(lv, msg)]) (level st)).
Proof.
  intros H. unfold logging_log.
  destruct (Z.leb_spec (level st) lv); [reflexivity|lia].
Qed.

Lemma bind_skip {B} lv msg (k : unit -> M B) st :
  lv < level st -> bind (logging_log lv msg) k st = k tt st.
Proof. intros H. unfold bind. rewrite logging_log_skip by exact H. reflexivity. Qed.

Lemma extraction_success data v :
  company_is data v ->
  exists r, has_company data = Ok true
            /\ getitem data (lit "result") = Ok r
            /\ getitem r (lit "company") = Ok v.
Proof.
  intros (d & r & -> & Hr & Hv). exists (PDict r).
  assert (Hne : d <> ∅) by (intros ->; rewrite lookup_empty in Hr; discriminate).
  split; [|split].
  - unfold has_company, truthy. rewrite (bool_decide_eq_false_2 _ Hne).
    cbn [negb]. cbn [py_in getitem].
    rewrite bool_decide_eq_true_2 by (rewrite Hr; eauto).
    rewrite Hr. cbn [py_in].
    rewrite bool_decide_eq_true_2 by (rewrite Hv; eauto). reflexivity.
  - cbn [getitem]. rewrite Hr. reflexivity.
  - cbn [getitem]. rewrite Hv. reflexivity.
Qed.


(** X6: when the service answers, with a status outside 400 to 599, an
    object whose [result] is an object with a field [company],
    [lookup_mac_vendor] returns the value of that field, whatever it is;
    above level [DEBUG] it logs nothing, and nothing else of the state
    changes. *)
Theorem X6_lookup_returns_company get mac data v st :
  answers get mac data -> company_is data v -> DEBUG < level st ->
  lookup_mac_vendor get mac st = (Ok v, st).
Proof.
  intros (resp & Hget & Hok & Hjson) Hc Hlev.
  destruct (extraction_success data v Hc) as (r & Hhas & Hres & Hcomp).
  destruct (raise_for_status_spec resp) as [[Herr _]|[_ Hraise]]; [contradiction|].
  unfold lookup_mac_vendor, try_except, lookup_body, logging_debug.
  rewrite bind_skip by exact Hlev.
  rewrite (bind_lift_Ok _ resp) by exact Hget.
  rewrite (bind_lift_Ok _ tt) by exact Hraise.
  rewrite (bind_lift_Ok _ data) by exact Hjson.
  rewrite (bind_lift_Ok _ true) by exact Hhas.
  rewrite (bind_lift_Ok _ r) by exact Hres.
  unfold lift. rewrite Hcomp. reflexivity.
Qed.

Lemma X6_lookup_returns_company_witness :
  answers (service 200 (company_doc (PStr (lit "Acme Corp")))) example_mac
    (company_doc (PStr (lit "Acme Corp"))) /\
  company_is (company_doc (PStr (lit "Acme Corp"))) (PStr (lit "Acme Corp")) /\
  DEBUG < level initial /\
  lookup_mac_vendor (service 200 (company_doc (PStr (lit "Acme Corp"))))
    example_mac initial
  = (Ok (PStr (lit "Acme Corp")), initial).
Proof.
  assert (Ha : answers (service 200 (company_doc (PStr (lit "Acme Corp"))))
                 example_mac (company_doc (PStr (lit "Acme Corp")))).
  { eexists. split; [reflexivity|]. split; [|reflexivity].
    unfold error_status. simpl. lia. }
  assert (Hl : DEBUG < level initial) by (vm_compute; reflexivity).
  split; [exact Ha|]. split; [apply company_doc_has|]. split; [exact Hl|].
  exact (X6_lookup_returns_company _ _ _ _ initial Ha (company_doc_has _) Hl).
Defined.

Lemma no_vendor_behaves get mac : no_vendor get mac -> http_behaves get mac.
Proof.
  intros [(e & Hget & He)|(resp & Hget & Hcase)]; split; rewrite ?Hget; simpl;
    try exact He; try exact I.
  - intros resp' Hget'. congruence.
  - intros resp' Hget' Hok. assert (resp' = resp) as -> by congruence.
    destruct Hcase as [Herr|[(e & -> & He)|(data & -> & _)]];
      [contradiction|exact He|exact I].
Qed.

Lemma no_vendor_value get mac : no_vendor get mac -> vendor_of get mac = PNone.
Proof.
  intros [(e & Hget & He)|(resp & Hget & Hcase)]; unfold vendor_of; rewrite Hget;
    [reflexivity|].
  destruct ((400 <=? status_code resp) && (status_code resp <? 600)) eqn:Ht;
    [reflexivity|].
  destruct Hcase as [Herr|[(e & -> & He)|(data & -> & Hno)]].
  - apply error_status_test in Herr. congruence.
  - reflexivity.
  - apply company_of_lacks, Hno.
Qed.

(** X7: in every other expected case (the request raises an
    [Exception], the status is from 400 to 599, the body does not
    decode, or the document has no [result.company], of whatever shape
    it is) [lookup_mac_vendor] returns [None]. *)
Theorem X7_lookup_returns_None get mac st :
  no_vendor get mac -> fst (lookup_mac_vendor get mac st) = Ok PNone.
Proof.
  intros H.
  destruct (lookup_mac_vendor_value get mac st (no_vendor_behaves _ _ H))
    as (st' & -> & _).
  rewrite (no_vendor_value _ _ H). reflexivity.
Qed.

Lemma X7_lookup_returns_None_witness :
  no_vendor (service 200 (PStr (lit "result company"))) example_mac /\
  fst (lookup_mac_vendor (service 200 (PStr (lit "result company")))
         example_mac initial) = Ok PNone.
Proof.
  assert (H : no_vendor (service 200 (PStr (lit "result company"))) example_mac).
  { right. eexists. split; [reflexivity|]. right. right.
    eexists. split; [reflexivity|].
    intros (v & d & r & Hd & _). discriminate. }
  split; [exact H|].
  exact (X7_lookup_returns_None _ _ initial H).
Defined.

Lemma log_only_ret {A} (a : A) : log_only (ret a).
Proof. intros st. repeat split. exists []. symmetry. apply app_nil_r. Qed.

Lemma log_only_lift {A} (r : pyresult A) : log_only (lift r).
Proof. intros st. repeat split. exists []. symmetry. apply app_nil_r. Qed.

Lemma log_only_logging_log lv msg : log_only (logging_log lv msg).
Proof.
  intros st. rewrite logging_log_stdout, logging_log_level. repeat split.
  unfold logging_log. destruct (level st <=? lv); simpl.
  - eexists. reflexivity.
  - exists []. symmetry. apply app_nil_r.
Qed.

Lemma log_only_step {A B} (m : M A) (k : pyresult A -> M B) :
  log_only m -> (forall r, log_only (k r)) ->
  log_only (fun st => k (fst (m st)) (snd (m st))).
Proof.
  intros Hm Hk st. destruct (Hm st) as (Ho & Hl & r1 & Hr1).
  destruct (Hk (fst (m st)) (snd (m st))) as (Ho' & Hl' & r2 & Hr2).
  split; [congruence|]. split; [congruence|].
  exists (r1 ++ r2). rewrite Hr2, Hr1. symmetry. apply app_assoc.
Qed.

Lemma log_only_bind {A B} (m : M A) (k : A -> M B) :
  log_only m -> (forall a, log_only (k a)) -> log_only (bind m k).
Proof.
  intros Hm Hk st.
  pose proof (log_only_step m
    (fun r => match r with Ok a => k a | Raise e => lift (Raise e) end) Hm) as H.
  unfold bind. specialize (H (fun r => match r with
                                       | Ok a => Hk a
                                       | Raise e => log_only_lift (Raise e)
                                       end) st).
  cbv beta in H. destruct (m st) as [[a|e] st1]; exact H.
Qed.

Lemma log_only_try_except {A} (body : M A) (handler : exn -> M A) :
  log_only body -> (forall e, log_only (handler e)) ->
  log_only (try_except body handler).
Proof.
  intros Hm Hk st.
  pose proof (log_only_step body
    (fun r => match r with Ok a => lift (Ok a) | Raise e => handler e end) Hm) as H.
  unfold try_except. specialize (H (fun r => match r with
                                             | Ok a => log_only_lift (Ok a)
                                             | Raise e => Hk e
                                             end) st).
  cbv beta in H. destruct (body st) as [[a|e] st1]; exact H.
Qed.

Create HintDb logonly.
#[local] Hint Resolve log_only_ret log_only_lift log_only_logging_log : logonly.

Ltac solve_log_only :=
  repeat first
    [ solve [auto with logonly]
    | match goal with
      | |- forall _, _ => intro
      | |- log_only (if ?c then _ else _) => destruct c
      | |- log_only (bind _ _) => apply log_only_bind
      | |- log_only (try_except _ _) => apply log_only_try_except
      | |- log_only (raise _) => apply log_only_lift
      end ].

(** X8: whatever the service does, [lookup_mac_vendor] writes nothing
    to standard output, leaves the logger's level as it was, and only
    adds records at the end of the log. *)
Theorem X8_lookup_only_logs get mac : log_only (lookup_mac_vendor get mac).
Proof.
  unfold lookup_mac_vendor, lookup_body, lookup_handler,
    logging_debug, logging_warning, logging_error.
  solve_log_only.
Qed.

(** X9: a request that fails in transport, or is answered with a status
    from 400 to 599, makes [lookup_mac_vendor] return [None] and add
    exactly one record to the log, of level [ERROR], that starts with
    [An error occurred during the request: ]. *)
Theorem X9_failed_request_logs_error get mac st :
  failed_run get mac -> DEBUG < level st <= ERROR ->
  exists msg,
    lookup_mac_vendor get mac st =
    (Ok PNone,
     mkState (stdout st)
       (log st ++ [(ERROR, lit "An error occurred during the request: " ++ msg)])
       (level st)).
Proof.
  intros Hfail [Hlo Hhi].
  unfold lookup_mac_vendor, try_except, lookup_body, logging_debug.
  rewrite bind_skip by exact Hlo.
  destruct Hfail as [(e & Hget & He)|(resp & Hget & Herr)].
  - rewrite (bind_lift_Raise _ e) by exact Hget.
    unfold lookup_handler. rewrite He. unfold logging_error, bind, ret.
    rewrite logging_log_emit by exact Hhi. eexists. reflexivity.
  - rewrite (bind_lift_Ok _ resp) by exact Hget.
    destruct (raise_for_status_spec resp) as [[_ [msg Hraise]]|[Hok _]];
      [|contradiction].
    rewrite (bind_lift_Raise _ _ _ _ Hraise).
    unfold lookup_handler. cbn [isinstance is_RequestException].
    unfold logging_error, bind, ret.
    rewrite logging_log_emit by exact Hhi. eexists. reflexivity.
Qed.

Lemma X9_failed_request_logs_error_witness :
  failed_run unreachable example_mac /\ DEBUG < level initial <= ERROR /\
  exists msg,
    lookup_mac_vendor unreachable example_mac initial =
    (Ok PNone,
     mkState (stdout initial)
       (log initial ++ [(ERROR, lit "An error occurred during the request: " ++ msg)])
       (level initial)).
Proof.
  assert (Hf : failed_run unreachable example_mac).
  { left. eexists. split; reflexivity. }
  assert (Hl : DEBUG < level initial <= ERROR) by (vm_compute; split; congruence).
  split; [exact Hf|]. split; [exact Hl|].
  exact (X9_failed_request_logs_error unreachable example_mac initial Hf Hl).
Defined.







Lemma not_Exception_unhandled e :
  isinstance e is_Exception = false ->
  isinstance e is_RequestException = false /\ isinstance e is_ValueError = false.
Proof. destruct e as [[] ?|]; simpl; intros H; try discriminate; auto. Qed.

(** X13: an exception of the request that is not an [Exception] (a
    [KeyboardInterrupt], a [SystemExit]) is caught by none of the three
    clauses: it leaves [lookup_mac_vendor], and then [main], which prints
    nothing. *)
Theorem X13_other_exceptions_pass get repr enc mac e st :
  get (format_url mac) = Raise e -> isinstance e is_Exception = false ->
  fst (lookup_mac_vendor get mac st) = Raise e /\
  fst (main_lookup get repr enc mac st) = Raise e /\
  stdout (snd (main_lookup get repr enc mac st)) = stdout st.
Proof.
  intros Hget He.
  destruct (not_Exception_unhandled e He) as [Hreq Hval].
  assert (Hlook : forall st0, exists st1,
            lookup_mac_vendor get mac st0 = (Raise e, st1)
            /\ stdout st1 = stdout st0).
  { intros st0.
    unfold lookup_mac_vendor, try_except, lookup_body, logging_debug.
    rewrite bind_logging_log.
    rewrite (bind_lift_Raise _ e) by exact Hget.
    unfold lookup_handler. rewrite Hreq, Hval, He.
    eexists. split; [reflexivity|]. apply logging_log_stdout. }
  split.
  - destruct (Hlook st) as (st1 & -> & _). reflexivity.
  - unfold main_lookup, logging_info. rewrite bind_logging_log.
    destruct (Hlook (snd (logging_log INFO
                (lit "Looking up vendor for MAC address: " ++ mac) st)))
      as (st1 & Heq & Hout).
    unfold bind. rewrite Heq. split; [reflexivity|].
    cbn [snd]. rewrite Hout. apply logging_log_stdout.
Qed.

Lemma X13_other_exceptions_pass_witness :
  fst (main_lookup (fun _ => Raise (Exn KeyboardInterrupt [])) (fun _ => []) (fun _ => true)
         example_mac initial) = Raise (Exn KeyboardInterrupt []) /\
  stdout (snd (main_lookup (fun _ => Raise (Exn KeyboardInterrupt [])) (fun _ => []) (fun _ => true)
                 example_mac initial)) = stdout initial.
Proof.
  exact (proj2 (X13_other_exceptions_pass
                  (fun _ => Raise (Exn KeyboardInterrupt [])) (fun _ => []) (fun _ => true)
                  example_mac (Exn KeyboardInterrupt []) initial
                  eq_refl eq_refl)).
Defined.

(** ** The driver past the validation (lines 106 to 113) *)

(** X14: whenever the request raises at most an [Exception], the part
    of [main] after the validation makes exactly one call of [print], on
    the text [Vendor information not found.] or on [Vendor: ] followed by
    a value that is true in Python.  When standard output encodes the
    text, the text is what the call writes and [main] returns; when it
    does not, the [UnicodeEncodeError] of [print] leaves [main] and
    nothing is written. *)
Theorem X14_one_print_per_lookup get repr enc mac st :
  http_behaves get mac ->
  exists text,
    (text = lit "Vendor information not found."
     \/ exists v, truthy v = true /\ text = lit "Vendor: " ++ format_value repr v)
    /\ if encodable enc text
       then fst (main_lookup get repr enc mac st) = Ok tt /\
            stdout (snd (main_lookup get repr enc mac st)) = stdout st ++ [text]
       else (exists msg, fst (main_lookup get repr enc mac st)
                         = Raise (Exn UnicodeEncodeError msg)) /\
            stdout (snd (main_lookup get repr enc mac st)) = stdout st.
Proof.
  intros Hb. destruct (truthy (vendor_of get mac)) eqn:Ht.
  - exists (lit "Vendor: " ++ format_value repr (vendor_of get mac)).
    split; [right; eauto|].
    destruct (encodable enc _) eqn:Henc.
    + destruct (main_lookup_vendor get repr enc mac st Hb Ht Henc)
        as (st' & -> & Hout). auto.
    + destruct (main_lookup_unencodable get repr enc mac st Hb Ht Henc)
        as (msg & st' & -> & Hout). eauto.
  - exists (lit "Vendor information not found."). split; [left; reflexivity|].
    rewrite not_found_encodable.
    destruct (main_lookup_not_found get repr enc mac st Hb Ht)
      as (st' & -> & Hout). auto.
Qed.

Lemma X14_one_print_per_lookup_witness :
  http_behaves unreachable example_mac /\
  exists text,
    (text = lit "Vendor information not found."
     \/ exists v, truthy v = true
                  /\ text = lit "Vendor: " ++ format_value (fun _ => []) v)
    /\ if encodable (fun _ => true) text
       then fst (main_lookup unreachable (fun _ => []) (fun _ => true)
                   example_mac initial) = Ok tt /\
            stdout (snd (main_lookup unreachable (fun _ => []) (fun _ => true)
                           example_mac initial)) = stdout initial ++ [text]
       else (exists msg, fst (main_lookup unreachable (fun _ => []) (fun _ => true)
                                example_mac initial)
                         = Raise (Exn UnicodeEncodeError msg)) /\
            stdout (snd (main_lookup unreachable (fun _ => []) (fun _ => true)
                           example_mac initial)) = stdout initial.
Proof.
  assert (H : http_behaves unreachable example_mac).
  { split; [reflexivity|]. intros resp Hresp. discriminate. }
  split; [exact H|].
  exact (X14_one_print_per_lookup unreachable (fun _ => []) (fun _ => true)
           example_mac initial H).
Defined.

Lemma answers_value get mac data v :
  answers get mac data -> company_is data v ->
  http_behaves get mac /\ vendor_of get mac = v.
Proof.
  intros (resp & Hget & Hok & Hjson) Hc. split.
  - split; [rewrite Hget; exact I|]. intros resp' Hget' _.
    assert (resp' = resp) as -> by congruence. rewrite Hjson. exact I.
  - unfold vendor_of. rewrite Hget, Hjson.
    destruct ((400 <=? status_code resp) && (status_code resp <? 600)) eqn:Ht.
    + apply error_status_test in Ht. contradiction.
    + apply company_of_has, Hc.
Qed.

(** X15: when the service answers a document whose [result.company] is
    true in Python, and standard output encodes the text, that part of
    [main] returns and what it writes is the one text [Vendor: ] followed
    by the value: the string itself when it is a string, its [str]
    otherwise. *)
Theorem X15_vendor_line get repr enc mac data v st :
  answers get mac data -> company_is data v -> truthy v = true ->
  encodable enc (lit "Vendor: " ++ match v with
                                   | PStr name => name
                                   | _ => repr v
                                   end) = true ->
  fst (main_lookup get repr enc mac st) = Ok tt /\
  stdout (snd (main_lookup get repr enc mac st))
  = stdout st ++ [lit "Vendor: " ++ match v with
                                    | PStr name => name
                                    | _ => repr v
                                    end].
Proof.
  intros Ha Hc Ht Henc. destruct (answers_value get mac data v Ha Hc) as [Hb Hv].
  destruct (main_lookup_vendor get repr enc mac st Hb) as (st' & -> & Hout);
    rewrite ?Hv; auto.
  rewrite Hv in Hout. split; [reflexivity|exact Hout].
Qed.

Lemma X15_vendor_line_witness :
  answers (service 200 (company_doc (PStr (lit "Acme Corp")))) example_mac
    (company_doc (PStr (lit "Acme Corp"))) /\
  truthy (PStr (lit "Acme Corp")) = true /\
  encodable (fun _ => false) (lit "Vendor: " ++ lit "Acme Corp") = true /\
  fst (main_lookup (service 200 (company_doc (PStr (lit "Acme Corp"))))
         (fun _ => []) (fun _ => false) example_mac initial) = Ok tt /\
  stdout (snd (main_lookup (service 200 (company_doc (PStr (lit "Acme Corp"))))
                 (fun _ => []) (fun _ => false) example_mac initial))
  = stdout initial ++ [lit "Vendor: " ++ lit "Acme Corp"].
Proof.
  assert (Ha : answers (service 200 (company_doc (PStr (lit "Acme Corp"))))
                 example_mac (company_doc (PStr (lit "Acme Corp")))).
  { eexists. split; [reflexivity|]. split; [|reflexivity].
    unfold error_status. simpl. lia. }
  split; [exact Ha|]. split; [reflexivity|]. split; [reflexivity|].
  exact (X15_vendor_line _ (fun _ => []) (fun _ => false) _ _
           (PStr (lit "Acme Corp")) initial
           Ha (company_doc_has _) eq_refl eq_refl).
Defined.

(** X20: when the service answers a document whose [result.company] is
    true in Python but holds a character that standard output cannot
    encode (a lone surrogate from a JSON escape, a letter outside the
    code page), [print] raises [UnicodeEncodeError] after the lookup has
    succeeded: the exception leaves [main], nothing is written, and the
    exit status is 1. *)
Theorem X20_unencodable_vendor get repr enc mac data v st :
  answers get mac data -> company_is data v -> truthy v = true ->
  encodable enc (lit "Vendor: " ++ match v with
                                   | PStr name => name
                                   | _ => repr v
                                   end) = false ->
  (exists msg, fst (main_lookup get repr enc mac st)
               = Raise (Exn UnicodeEncodeError msg)) /\
  exit_status (fst (main_lookup get repr enc mac st)) = 1 /\
  stdout (snd (main_lookup get repr enc mac st)) = stdout st.
Proof.
  intros Ha Hc Ht Henc. destruct (answers_value get mac data v Ha Hc) as [Hb Hv].
  destruct (main_lookup_unencodable get repr enc mac st Hb) as (msg & st' & -> & Hout);
    rewrite ?Hv; auto.
  split; [eauto|]. split; [reflexivity|exact Hout].
Qed.

Lemma X20_unencodable_vendor_witness :
  answers (service 200 (company_doc (PStr [55296%N]))) example_mac
    (company_doc (PStr [55296%N])) /\
  truthy (PStr [55296%N]) = true /\
  encodable (fun _ => false) (lit "Vendor: " ++ [55296%N]) = false /\
  (exists msg,
     fst (main_lookup (service 200 (company_doc (PStr [55296%N])))
            (fun _ => []) (fun _ => false) example_mac initial)
     = Raise (Exn UnicodeEncodeError msg)) /\
  exit_status
    (fst (main_lookup (service 200 (company_doc (PStr [55296%N])))
            (fun _ => []) (fun _ => false) example_mac initial)) = 1 /\
  stdout (snd (main_lookup (service 200 (company_doc (PStr [55296%N])))
                 (fun _ => []) (fun _ => false) example_mac initial))
  = stdout initial.
Proof.
  assert (Ha : answers (service 200 (company_doc (PStr [55296%N])))
                 example_mac (company_doc (PStr [55296%N]))).
  { eexists. split; [reflexivity|]. split; [|reflexivity].
    unfold error_status. simpl. lia. }
  split; [exact Ha|]. split; [reflexivity|]. split; [reflexivity|].
  exact (X20_unencodable_vendor _ (fun _ => []) (fun _ => false) _ _
           (PStr [55296%N]) initial
           Ha (company_doc_has _) eq_refl eq_refl).
Defined.

(** X16: when the service answers a document whose [result.company] is
    false in Python (an empty string, [null], zero, [false], an empty
    list or object), that part of [main] prints the one line
    [Vendor information not found.], as if the field were missing. *)
Theorem X16_falsy_company_not_found get repr enc mac data v st :
  answers get mac data -> company_is data v -> truthy v = false ->
  fst (main_lookup get repr enc mac st) = Ok tt /\
  stdout (snd (main_lookup get repr enc mac st))
  = stdout st ++ [lit "Vendor information not found."].
Proof.
  intros Ha Hc Ht. destruct (answers_value get mac data v Ha Hc) as [Hb Hv].
  destruct (main_lookup_not_found get repr enc mac st Hb) as (st' & -> & Hout);
    [rewrite Hv; exact Ht|].
  split; [reflexivity|exact Hout].
Qed.

Lemma X16_falsy_company_not_found_witness :
  answers (service 200 (company_doc (PStr []))) example_mac
    (company_doc (PStr [])) /\
  truthy (PStr []) = false /\
  fst (main_lookup (service 200 (company_doc (PStr []))) (fun _ => []) (fun _ => true)
         example_mac initial) = Ok tt /\
  stdout (snd (main_lookup (service 200 (company_doc (PStr []))) (fun _ => []) (fun _ => true)
                 example_mac initial))
  = stdout initial ++ [lit "Vendor information not found."].
Proof.
  assert (Ha : answers (service 200 (company_doc (PStr []))) example_mac
                 (company_doc (PStr []))).
  { eexists. split; [reflexivity|]. split; [|reflexivity].
    unfold error_status. simpl. lia. }
  split; [exact Ha|]. split; [reflexivity|].
  exact (X16_falsy_company_not_found _ (fun _ => []) (fun _ => true) _ _ (PStr []) initial
           Ha (company_doc_has _) eq_refl).
Defined.

(** ** The flag [-v] and the log *)

Lemma in_step_ret {A} (a : A) : in_step (ret a).
Proof. intros sv sq H. split; [reflexivity|exact H]. Qed.

Lemma in_step_lift {A} (r : pyresult A) : in_step (lift r).
Proof. intros sv sq H. split; [reflexivity|exact H]. Qed.

Lemma in_step_print enc text : in_step (print enc text).
Proof.
  intros sv sq (Hout & Hv & Hq & Hlog). unfold print.
  destruct (encodable enc text); (split; [reflexivity|]);
    unfold verbose_view; cbn [stdout level log snd]; [rewrite Hout|]; auto.
Qed.

Lemma in_step_logging_log lv msg :
  lv = DEBUG \/ INFO <= lv -> in_step (logging_log lv msg).
Proof.
  intros Hlv sv sq (Hout & Hv & Hq & Hlog).
  rewrite !logging_log_fst. split; [reflexivity|].
  unfold verbose_view. rewrite !logging_log_stdout, !logging_log_level.
  split; [exact Hout|]. split; [exact Hv|]. split; [exact Hq|].
  unfold DEBUG, INFO in *.
  rewrite (logging_log_emit lv msg sv) by lia. cbn [snd log].
  rewrite List.filter_app. cbn [List.filter]. unfold above_debug at 2. cbn [fst].
  destruct Hlv as [->|Hlv].
  - rewrite (logging_log_skip 10 msg sq) by lia.
    cbn [snd]. unfold DEBUG. cbn. rewrite app_nil_r. exact Hlog.
  - rewrite (logging_log_emit lv msg sq) by lia. cbn [snd log].
    unfold DEBUG. destruct (Z.eqb_spec lv 10) as [->|_]; [lia|].
    cbn. rewrite Hlog. reflexivity.
Qed.

Lemma in_step_bind {A B} (m : M A) (k : A -> M B) :
  in_step m -> (forall a, in_step (k a)) -> in_step (bind m k).
Proof.
  intros Hm Hk sv sq H. unfold bind.
  destruct (Hm sv sq H) as [Hr Hs].
  destruct (m sv) as [[a1|e1] s1], (m sq) as [[a2|e2] s2];
    simpl in Hr, Hs; try discriminate.
  - inversion Hr; subst a2. apply Hk, Hs.
  - inversion Hr; subst e2. split; [reflexivity|exact Hs].
Qed.

Lemma in_step_try_except {A} (body : M A) (handler : exn -> M A) :
  in_step body -> (forall e, in_step (handler e)) ->
  in_step (try_except body handler).
Proof.
  intros Hm Hk sv sq H. unfold try_except.
  destruct (Hm sv sq H) as [Hr Hs].
  destruct (body sv) as [[a1|e1] s1], (body sq) as [[a2|e2] s2];
    simpl in Hr, Hs; try discriminate.
  - inversion Hr; subst a2. split; [reflexivity|exact Hs].
  - inversion Hr; subst e2. apply Hk, Hs.
Qed.

Ltac solve_in_step :=
  repeat first
    [ assumption
    | apply in_step_ret
    | apply in_step_lift
    | apply in_step_print
    | apply in_step_logging_log; unfold DEBUG, INFO, WARNING, ERROR; lia
    | match goal with
      | |- forall _, _ => intro
      | |- in_step (if ?c then _ else _) => destruct c
      | |- in_step (bind _ _) => apply in_step_bind
      | |- in_step (try_except _ _) => apply in_step_try_except
      | |- in_step (raise _) => apply in_step_lift
      | |- in_step (sys_exit _) => apply in_step_lift
      end ].

Lemma in_step_lookup_mac_vendor get mac : in_step (lookup_mac_vendor get mac).
Proof.
  unfold lookup_mac_vendor, lookup_body, lookup_handler,
    logging_debug, logging_warning, logging_error.
  solve_in_step.
Qed.

Lemma in_step_main_lookup get repr enc mac : in_step (main_lookup get repr enc mac).
Proof.
  unfold main_lookup, logging_info.
  pose proof (in_step_lookup_mac_vendor get mac).
  solve_in_step.
Qed.

(** X17: past the validation, the flag [-v] changes nothing but the
    [DEBUG] records: from two states that agree on what was printed and
    on the log without its [DEBUG] records, one at level [DEBUG] and one
    at level [INFO], that part of [main] gives the same outcome and leaves
    two states that agree in the same way. *)
Theorem X17_verbose_adds_only_debug_records get repr enc mac sv sq :
  verbose_view sv sq ->
  fst (main_lookup get repr enc mac sv) = fst (main_lookup get repr enc mac sq) /\
  verbose_view (snd (main_lookup get repr enc mac sv))
               (snd (main_lookup get repr enc mac sq)).
Proof. apply in_step_main_lookup. Qed.

Lemma X17_verbose_adds_only_debug_records_witness :
  verbose_view (mkState [] [verbose_record] DEBUG) initial /\
  fst (main_lookup (service 200 empty_result_doc) (fun _ => []) (fun _ => true) example_mac
         (mkState [] [verbose_record] DEBUG))
  = fst (main_lookup (service 200 empty_result_doc) (fun _ => []) (fun _ => true) example_mac
           initial) /\
  verbose_view
    (snd (main_lookup (service 200 empty_result_doc) (fun _ => []) (fun _ => true) example_mac
            (mkState [] [verbose_record] DEBUG)))
    (snd (main_lookup (service 200 empty_result_doc) (fun _ => []) (fun _ => true) example_mac
            initial)).
Proof.
  assert (H : verbose_view (mkState [] [verbose_record] DEBUG) initial)
    by (repeat split).
  split; [exact H|].
  exact (X17_verbose_adds_only_debug_records (service 200 empty_result_doc)
           (fun _ => []) (fun _ => true) example_mac _ _ H).
Defined.

Lemma in_step_after_verbose get repr enc mac : in_step (after_verbose get repr enc mac).
Proof.
  unfold after_verbose, logging_error.
  pose proof (in_step_main_lookup get repr enc (strip mac)).
  solve_in_step.
Qed.

(** X18: for every address and every service, the log of the run with
    [-v] is the log of the run without it with [DEBUG] records added:
    each other record is there in both, in the same order; the logger ends
    at [DEBUG] in the one and at [INFO] in the other. *)
Theorem X18_verbose_run_log get repr enc (mac : list N) :
  List.filter above_debug (log (snd (run get repr enc (mkNamespace mac true))))
  = log (snd (run get repr enc (mkNamespace mac false))) /\
  level (snd (run get repr enc (mkNamespace mac true))) = DEBUG /\
  level (snd (run get repr enc (mkNamespace mac false))) = INFO.
Proof.
  rewrite !run_snd, main_verbose, main_quiet.
  destruct (in_step_after_verbose get repr enc mac
              (snd (logging_log DEBUG (lit "Verbose logging enabled.")
                      (mkState (stdout initial) (log initial) DEBUG)))
              initial) as [_ (_ & Hv & Hq & Hlog)].
  - repeat split.
  - auto.
Qed.

(** ** The argument is trimmed once *)

Lemma lstrip_idempotent s : lstrip (lstrip s) = lstrip s.
Proof.
  induction s as [|c s IH]; [reflexivity|]. simpl.
  destruct (isspace c) eqn:Hc; [exact IH|]. simpl. rewrite Hc. reflexivity.
Qed.

Lemma lstrip_head c s : isspace c = false -> lstrip (c :: s) = c :: s.
Proof. intros Hc. simpl. rewrite Hc. reflexivity. Qed.

Lemma lstrip_cases s :
  lstrip s = [] \/ exists c t, lstrip s = c :: t /\ isspace c = false.
Proof.
  induction s as [|c s IH]; [left; reflexivity|]. simpl.
  destruct (isspace c) eqn:Hc; [exact IH|]. right. eauto.
Qed.

Lemma lstrip_snoc l c :
  isspace c = false -> exists l', lstrip (l ++ [c]) = l' ++ [c].
Proof.
  intros Hc. induction l as [|a l IH]; simpl.
  - rewrite Hc. exists []. reflexivity.
  - destruct (isspace a); [exact IH|]. exists (a :: l). reflexivity.
Qed.

Lemma strip_idempotent s : strip (strip s) = strip s.
Proof.
  unfold strip, rstrip.
  destruct (lstrip_cases s) as [->|(c & t & -> & Hc)]; [reflexivity|].
  cbn [rev]. destruct (lstrip_snoc (rev t) c Hc) as [l' Hl'].
  rewrite Hl'. rewrite rev_app_distr. cbn [rev app].
  rewrite (lstrip_head c (rev l') Hc).
  change (c :: rev l') with (rev [c] ++ rev l'). rewrite <- rev_app_distr.
  rewrite rev_involutive, <- Hl', lstrip_idempotent. reflexivity.
Qed.

(** X19: [main] looks at the trimmed argument only: white space around
    the address changes nothing, the run on an address and the run on its
    trimmed form are the same. *)
Theorem X19_surrounding_space_ignored get repr enc (mac : list N) (v : bool) :
  run get repr enc (mkNamespace (strip mac) v) = run get repr enc (mkNamespace mac v).
Proof.
  unfold run, main. cbn [mac_address verbose].
  rewrite strip_idempotent. reflexivity.
Qed.
